(** * Semi-Auto: room lifecycle, heartbeat and round coordination

  A shallow embedding of the browser client of the Semi-Auto party game:
  - [js/networking.js] (the [networkManager] object: socket, heartbeat,
    room requests) is embedded in [Module Net];
  - [js/index.js] (roster, round timer, winner selection, tap display,
    room-code generation) is embedded in [Module Game], its random picks
    in [Module Picks] and its remaining handlers, with the event loop of
    the page, in [Module Handlers].

  Module-level [let] variables of the scripts become fields of a state
  record and every function that mutates them becomes a state transformer.
  Browser timers are tables of live handles; the DOM is reduced to the
  elements the scripts read back ([.player-cell] elements, appended result
  modals, the error banner). *)

From Stdlib Require Import List String Ascii ZArith Lia Bool Arith.
From Stdlib Require Import Decimal DecimalString DecimalPos DecimalZ.
From Stdlib Require Import Permutation.
Import ListNotations.

Set Implicit Arguments.
Open Scope string_scope.

(** ** JavaScript primitives used by the scripts *)

Module JS.

(** [String.prototype.charAt]: the one-character string at [i], or the
    empty string when [i] is out of range. *)
Definition charAt (s : string) (i : nat) : string :=
  match String.get i s with
  | Some c => String c EmptyString
  | None => EmptyString
  end.

(** [s.includes(w)]: [w] occurs in [s] as a contiguous substring. *)
Fixpoint includes (s w : string) : bool :=
  String.prefix w s ||
  match s with
  | EmptyString => false
  | String _ s' => includes s' w
  end.

Definition isDigit (c : ascii) : bool :=
  (48 <=? nat_of_ascii c)%nat && (nat_of_ascii c <=? 57)%nat.

(** White space skipped by [parseInt] (tab, LF, VT, FF, CR, space). *)
Definition isWhite (c : ascii) : bool :=
  let n := nat_of_ascii c in
  ((9 <=? n)%nat && (n <=? 13)%nat) || (n =? 32)%nat.

Fixpoint trimStart (s : string) : string :=
  match s with
  | String c s' => if isWhite c then trimStart s' else s
  | EmptyString => EmptyString
  end.

Fixpoint digitPrefix (s : string) : string :=
  match s with
  | String c s' => if isDigit c then String c (digitPrefix s') else EmptyString
  | EmptyString => EmptyString
  end.

(** Value of a non-empty run of decimal digits. *)
Definition digitsValue (ds : string) : option Z :=
  match ds with
  | EmptyString => None
  | _ => option_map (fun u => Z.of_N (N.of_uint u)) (NilEmpty.uint_of_string ds)
  end.

(** [parseInt(s)] with no radix: leading white space is skipped, an
    optional sign is read, then the longest run of decimal digits; [None]
    is [NaN].  Numbers are integers of unbounded size (JavaScript doubles
    are exact up to 2^53); the [0x] prefix is not modelled, the counter
    text parsed by the scripts is only ever written as a decimal numeral. *)
Definition parseInt (s : string) : option Z :=
  match trimStart s with
  | String "-" r => option_map Z.opp (digitsValue (digitPrefix r))
  | String "+" r => digitsValue (digitPrefix r)
  | r => digitsValue (digitPrefix r)
  end.

(** [x || 0] on a number: [NaN] and [0] give [0]. *)
Definition orZero (x : option Z) : Z :=
  match x with
  | Some z => z
  | None => 0%Z
  end.

(** Conversion of an integer number to its string ([String(n)], also the
    conversion done when a number is assigned to [textContent] or spliced
    into a template literal). *)
Definition numberToString (z : Z) : string :=
  NilZero.string_of_int (Z.to_int z).

End JS.

(** ** The room-code generator of js/index.js *)

Module RoomCode.

Definition letters : string := "ABCDEFGHJKLMNPQRSTUWXYZ".

Definition badWords : list string :=
  ["FUCK"; "FVCK"; "SHIT"; "DAMN"; "CUNT"; "DICK"; "COCK"; "TWAT"; "CRAP"; "STFU"].

(** The random source: [rnd k] is the value of the k-th evaluation of
    [Math.floor(Math.random() * letters.length)]. *)
Definition source := nat -> nat.

(** The inner [for] loop: [n] more characters are appended to [code],
    reading the source from position [pos]. *)
Fixpoint drawCode (rnd : source) (n pos : nat) (code : string) : string :=
  match n with
  | O => code
  | S n' => drawCode rnd n' (S pos) (code ++ JS.charAt letters (rnd pos))
  end.

Definition attempt (rnd : source) (pos : nat) : string :=
  drawCode rnd 4 pos "".

Definition rejected (code : string) : bool :=
  existsb (fun word => JS.includes code word) badWords.

(** [while (true)] unrolled [fuel] times; [None] when every one of the
    [fuel] attempts was rejected. *)
Fixpoint generateRoomCode (fuel : nat) (rnd : source) (pos : nat) : option string :=
  match fuel with
  | O => None
  | S fuel' =>
      let code := attempt rnd pos in
      if negb (rejected code) then Some code
      else generateRoomCode fuel' rnd (pos + 4)
  end.

End RoomCode.

(** ** js/networking.js *)

Module Net.

(** Payload of [updateGameState]; the only caller passes [{gameEnded: true}]. *)
Record GameState := mkGameState { gameEnded : bool }.

(** Payload of [updatePlayerInfo]; an absent property is [None]. *)
Record PlayerInfo := mkPlayerInfo {
  oldName : string;
  newNickname : option string;
  newSkinId : option Z }.

(** What is handed to [socket.emit].  A property whose value is
    [undefined] is [None]. *)
Inductive message :=
| Ping
| CreateRoom (roomCode : string) (hostId : option string) (hostSkin : option Z)
| JoinRoom (roomCode name : string) (skinId : Z) (clientId : option string)
| PlayerTap
| UpdateGameState (st : GameState)
| UpdatePlayerInfo (data : PlayerInfo).

(** Closures registered with [socket.once('connect', ...)]. *)
Inductive deferred :=
| DeferCreateRoom (roomCode : string)
| DeferJoin (roomCode playerName : string) (skinId : Z).

(** A socket object returned by [io(...)]: [emitted] is what was handed to
    [emit]; [onceConnect] are the closures waiting for the next ['connect'];
    [listeners] are the event names with a handler attached by [on] (or by
    [once], for events other than ['connect']), in registration order. *)
Record Socket := mkSocket {
  connected : bool;
  id : option string;
  emitted : list message;
  onceConnect : list deferred;
  listeners : list string }.

(** The object built by [io(url, {...})], with the ['connect'] listener
    that [connectToServer] attaches to it. *)
Definition freshSocket : Socket :=
  mkSocket false None [] [] ["connect"].

(** The module-level variables of the script, the socket objects it has
    created, the browser's timer tables, the console and the error banner. *)
Record state := mkState {
  sockets : list Socket;
  socket : option nat;
  pingInterval : option nat;
  lastPongReceived : Z;
  intervals : list nat;
  reconnects : list nat;
  nextHandle : nat;
  console : list string;
  shownErrors : list string }.

(** The script as loaded: no socket yet.  Timer handles are positive, so
    [if (pingInterval)] tests for [Some]; [lastPongReceived] is assigned by
    the ['connect'] listener before any interval exists. *)
Definition init : state :=
  mkState [] None None 0 [] [] 1 [] [].

Definition setSockets (v : list Socket) (s : state) : state :=
  mkState v (socket s) (pingInterval s) (lastPongReceived s) (intervals s)
    (reconnects s) (nextHandle s) (console s) (shownErrors s).

Definition setSocket (v : option nat) (s : state) : state :=
  mkState (sockets s) v (pingInterval s) (lastPongReceived s) (intervals s)
    (reconnects s) (nextHandle s) (console s) (shownErrors s).

Definition setPingInterval (v : option nat) (s : state) : state :=
  mkState (sockets s) (socket s) v (lastPongReceived s) (intervals s)
    (reconnects s) (nextHandle s) (console s) (shownErrors s).

Definition setLastPongReceived (v : Z) (s : state) : state :=
  mkState (sockets s) (socket s) (pingInterval s) v (intervals s)
    (reconnects s) (nextHandle s) (console s) (shownErrors s).

Definition setIntervals (v : list nat) (s : state) : state :=
  mkState (sockets s) (socket s) (pingInterval s) (lastPongReceived s) v
    (reconnects s) (nextHandle s) (console s) (shownErrors s).

Definition setReconnects (v : list nat) (s : state) : state :=
  mkState (sockets s) (socket s) (pingInterval s) (lastPongReceived s) (intervals s)
    v (nextHandle s) (console s) (shownErrors s).

Definition setNextHandle (v : nat) (s : state) : state :=
  mkState (sockets s) (socket s) (pingInterval s) (lastPongReceived s) (intervals s)
    (reconnects s) v (console s) (shownErrors s).

Definition log (line : string) (s : state) : state :=
  mkState (sockets s) (socket s) (pingInterval s) (lastPongReceived s) (intervals s)
    (reconnects s) (nextHandle s) (console s ++ [line]) (shownErrors s).

Definition showError (msg : string) (s : state) : state :=
  mkState (sockets s) (socket s) (pingInterval s) (lastPongReceived s) (intervals s)
    (reconnects s) (nextHandle s) (console s) (shownErrors s ++ [msg]).

(** *** Socket objects *)

Fixpoint updateAt (i : nat) (f : Socket -> Socket) (l : list Socket) : list Socket :=
  match l, i with
  | [], _ => []
  | x :: l', O => f x :: l'
  | x :: l', S i' => x :: updateAt i' f l'
  end.

(** The object the variable [socket] points to. *)
Definition current (s : state) : option Socket :=
  match socket s with
  | Some i => nth_error (sockets s) i
  | None => None
  end.

Definition onCurrent (f : Socket -> Socket) (s : state) : state :=
  match socket s with
  | Some i => setSockets (updateAt i f (sockets s)) s
  | None => s
  end.

(** [socket && socket.connected] *)
Definition isConnected (s : state) : bool :=
  match current s with
  | Some k => connected k
  | None => false
  end.

Definition emit (m : message) : state -> state :=
  onCurrent (fun k => mkSocket (connected k) (id k) (emitted k ++ [m])
                        (onceConnect k) (listeners k)).

Definition on (ev : string) : state -> state :=
  onCurrent (fun k => mkSocket (connected k) (id k) (emitted k)
                        (onceConnect k) (listeners k ++ [ev])).

Definition off (ev : string) : state -> state :=
  onCurrent (fun k => mkSocket (connected k) (id k) (emitted k) (onceConnect k)
                        (filter (fun e => negb (String.eqb e ev)) (listeners k))).

Definition onceConnected (d : deferred) : state -> state :=
  onCurrent (fun k => mkSocket (connected k) (id k) (emitted k)
                        (onceConnect k ++ [d]) (listeners k)).

(** [socket.disconnect()] *)
Definition disconnect : state -> state :=
  onCurrent (fun k => mkSocket false None (emitted k) (onceConnect k) (listeners k)).

(** *** Timers *)

Definition clearInterval (h : option nat) (s : state) : state :=
  match h with
  | Some n => setIntervals (filter (fun m => negb (Nat.eqb m n)) (intervals s)) s
  | None => s
  end.

(** [pingInterval = setInterval(..., 25000)] *)
Definition setPingTimer (s : state) : state :=
  let h := nextHandle s in
  setPingInterval (Some h) (setIntervals (intervals s ++ [h]) (setNextHandle (S h) s)).

(** [setTimeout(() => connectToServer(), 1000)] *)
Definition scheduleReconnect (s : state) : state :=
  let h := nextHandle s in
  setReconnects (reconnects s ++ [h]) (setNextHandle (S h) s).

(** *** The functions of the script *)

Definition setupSocketEventHandlers (s : state) : state :=
  match socket s with
  | None => s
  | Some _ =>
      on "gameStateUpdate" (on "tapEvent" (on "gameStarting"
        (on "player-info-update" (on "roomClosed" (on "roomError" (on "pong" s))))))
  end.

Definition connectToServer (s : state) : state :=
  if isConnected s then s
  else setSocket (Some (List.length (sockets s))) (setSockets (sockets s ++ [freshSocket]) s).

(** Body of the ['connect'] listener installed by [connectToServer]. *)
Definition onConnect (now : Z) (s : state) : state :=
  let s1 := setLastPongReceived now (log "Connected to server" s) in
  let s2 := match pingInterval s1 with
            | Some h => clearInterval (Some h) s1
            | None => s1
            end in
  setupSocketEventHandlers (setPingTimer s2).

(** Body of the callback given to [setInterval]. *)
Definition heartbeat (now : Z) (s : state) : state :=
  if isConnected s then
    let s1 := emit Ping s in
    if (now - lastPongReceived s1 >? 60000)%Z then
      scheduleReconnect
        (disconnect
           (clearInterval (pingInterval s1)
              (log "Connection lost, attempting to reconnect..." s1)))
    else s1
  else s.

Definition performCreateRoom (roomCode : string) (hostSkin : option Z) (s : state) : state :=
  let s1 := log ("Creating room with code: " ++ roomCode) s in
  let s2 := off "playerLeft" (off "playerJoined" s1) in
  let hostId := match current s2 with Some k => id k | None => None end in
  let s3 := emit (CreateRoom roomCode hostId hostSkin) s2 in
  on "playerLeft" (on "playerJoined" s3).

(** [function createRoom(roomCode)]: one declared parameter; both calls of
    [performCreateRoom] pass [roomCode] only, so its [hostSkin] parameter is
    [undefined]. *)
Definition createRoom (roomCode : string) (s : state) : state :=
  if negb (isConnected s) then
    onceConnected (DeferCreateRoom roomCode) (connectToServer s)
  else performCreateRoom roomCode None s.

Definition toUpperChar (c : ascii) : ascii :=
  let n := nat_of_ascii c in
  if ((97 <=? n) && (n <=? 122))%nat then ascii_of_nat (n - 32) else c.

Fixpoint toUpperCase (s : string) : string :=
  match s with
  | EmptyString => EmptyString
  | String c s' => String (toUpperChar c) (toUpperCase s')
  end.

Definition performJoin (roomCode playerName : string) (skinId : Z) (s : state) : state :=
  let s1 := showError "Joining room..." (log ("Attempting to join room: " ++ roomCode) s) in
  let s2 := on "updatePlayerInfo" s1 in
  let clientId := match current s2 with Some k => id k | None => None end in
  let s3 := emit (JoinRoom (toUpperCase roomCode) playerName skinId clientId) s2 in
  on "roomError" (on "joinSuccess" s3).

Definition joinRoom (roomCode playerName : string) (skinId : Z) (s : state) : state :=
  if negb (isConnected s) then
    onceConnected (DeferJoin roomCode playerName skinId) (connectToServer s)
  else performJoin roomCode playerName skinId s.

Definition sendTap (s : state) : state :=
  if isConnected s then emit PlayerTap s else s.

Definition updateGameState (st : GameState) (s : state) : state :=
  if isConnected s then emit (UpdateGameState st) s else s.

Definition updatePlayerInfo (data : PlayerInfo) (s : state) : state :=
  let s1 := log "NetworkManager: Sending player info update:" s in
  if isConnected s1 then emit (UpdatePlayerInfo data) s1
  else log "NetworkManager: Cannot send update - socket not connected" s1.

(** [networkManager.createRoom(code, skin)] as index.js calls it: the
    second argument has no parameter to bind to and is discarded. *)
Definition networkManager_createRoom (code : string) (hostSkin : Z) : state -> state :=
  createRoom code.

(** *** Events of the event loop *)

Definition runDeferred (d : deferred) : state -> state :=
  match d with
  | DeferCreateRoom roomCode => performCreateRoom roomCode None
  | DeferJoin roomCode playerName skinId => performJoin roomCode playerName skinId
  end.

(** What the event loop can run next: a call of an exported function, a
    transport event of one of the socket objects, or a timer. *)
Inductive event :=
| CallConnectToServer
| CallCreateRoom (code : string) (hostSkin : Z)
| CallJoinRoom (code name : string) (skinId : Z)
| CallUpdatePlayerInfo (data : PlayerInfo)
| CallSendTap
| CallUpdateGameState (st : GameState)
| SocketConnects (i : nat) (sid : string) (now : Z)
| SocketDrops (i : nat)
| PongArrives (i : nat) (now : Z)
| IntervalFires (h : nat) (now : Z)
| ReconnectFires (h : nat).

(** The transport of socket object [i] comes up: the object becomes
    connected with id [sid] and its ['connect'] listeners run in
    registration order, the [once] ones being removed. *)
Definition socketConnects (i : nat) (sid : string) (now : Z) (s : state) : state :=
  match nth_error (sockets s) i with
  | Some k =>
      if connected k then s
      else
        let s1 := setSockets
                    (updateAt i (fun k => mkSocket true (Some sid) (emitted k) []
                                            (listeners k))
                       (sockets s)) s in
        fold_left (fun acc d => runDeferred d acc) (onceConnect k) (onConnect now s1)
  | None => s
  end.

(** The transport of socket object [i] is lost. *)
Definition socketDrops (i : nat) (s : state) : state :=
  setSockets (updateAt i (fun k => mkSocket false None (emitted k) (onceConnect k)
                                     (listeners k)) (sockets s)) s.

(** A [pong] arrives on socket object [i]; it is handled when that object
    has the listener installed by [setupSocketEventHandlers]. *)
Definition pongArrives (i : nat) (now : Z) (s : state) : state :=
  match nth_error (sockets s) i with
  | Some k =>
      if connected k && existsb (String.eqb "pong") (listeners k)
      then setLastPongReceived now s else s
  | None => s
  end.

Definition intervalFires (h : nat) (now : Z) (s : state) : state :=
  if existsb (Nat.eqb h) (intervals s) then heartbeat now s else s.

Definition reconnectFires (h : nat) (s : state) : state :=
  if existsb (Nat.eqb h) (reconnects s)
  then connectToServer
         (setReconnects (filter (fun m => negb (Nat.eqb m h)) (reconnects s)) s)
  else s.

Definition step (s : state) (e : event) : state :=
  match e with
  | CallConnectToServer => connectToServer s
  | CallCreateRoom code hostSkin => networkManager_createRoom code hostSkin s
  | CallJoinRoom code name skinId => joinRoom code name skinId s
  | CallUpdatePlayerInfo data => updatePlayerInfo data s
  | CallSendTap => sendTap s
  | CallUpdateGameState st => updateGameState st s
  | SocketConnects i sid now => socketConnects i sid now s
  | SocketDrops i => socketDrops i s
  | PongArrives i now => pongArrives i now s
  | IntervalFires h now => intervalFires h now s
  | ReconnectFires h => reconnectFires h s
  end.

Definition run (es : list event) (s : state) : state :=
  fold_left step es s.

End Net.

(** ** js/index.js *)

Module Game.

(** A roster entry, as pushed by [addPlayer] and [addPlayerToList]. *)
Record player := mkPlayer { name : string; skinId : Z }.

(** A [.player-cell] element with the three children that
    [createPlayerCell] gives it: [playerName] and [tapCounter] are the
    [textContent] of [.player-name] and [.tap-counter], [flashActive] says
    whether [.player-flash] carries the class [active]. *)
Record cell := mkCell {
  cellId : string;
  playerName : string;
  tapCounter : string;
  flashActive : bool }.

Definition GAME_DURATION : Z := 60000.

(** The module-level variables of the script, the parts of the document it
    reads back, and the pending round-end timeouts: [cells] are the
    [.player-cell] elements in document order, [playerList] the roster as
    rendered in [#player-list], [startDisabled] the [disabled] property of
    [#start-game-button], [modals] the result paragraphs of the modals
    appended to the body.  [timeouts] holds, with handle and delay, the
    pending timeouts armed by [startGameTimer], the only ones whose callback
    touches this state; the script's other timeouts (3000 ms in [startGame],
    2000 ms in [addPlayerToList] and [onPlayerInfoUpdate]) only remove a
    banner or a highlight class and are not recorded. *)
Record state := mkState {
  players : list player;
  isHost : bool;
  gameStarting : bool;
  gameStarted : bool;
  gameEndTimeout : option nat;
  cells : list cell;
  playerList : list player;
  startDisabled : bool;
  modals : list string;
  timeouts : list (nat * Z);
  nextHandle : nat }.

Definition init : state :=
  mkState [] false false false None [] [] false [] [] 1.

Definition setPlayers (v : list player) (g : state) : state :=
  mkState v (isHost g) (gameStarting g) (gameStarted g) (gameEndTimeout g) (cells g)
    (playerList g) (startDisabled g) (modals g) (timeouts g) (nextHandle g).

Definition setIsHost (v : bool) (g : state) : state :=
  mkState (players g) v (gameStarting g) (gameStarted g) (gameEndTimeout g) (cells g)
    (playerList g) (startDisabled g) (modals g) (timeouts g) (nextHandle g).

Definition setGameStarting (v : bool) (g : state) : state :=
  mkState (players g) (isHost g) v (gameStarted g) (gameEndTimeout g) (cells g)
    (playerList g) (startDisabled g) (modals g) (timeouts g) (nextHandle g).

Definition setGameStarted (v : bool) (g : state) : state :=
  mkState (players g) (isHost g) (gameStarting g) v (gameEndTimeout g) (cells g)
    (playerList g) (startDisabled g) (modals g) (timeouts g) (nextHandle g).

Definition setGameEndTimeout (v : option nat) (g : state) : state :=
  mkState (players g) (isHost g) (gameStarting g) (gameStarted g) v (cells g)
    (playerList g) (startDisabled g) (modals g) (timeouts g) (nextHandle g).

Definition setCells (v : list cell) (g : state) : state :=
  mkState (players g) (isHost g) (gameStarting g) (gameStarted g) (gameEndTimeout g) v
    (playerList g) (startDisabled g) (modals g) (timeouts g) (nextHandle g).

Definition setPlayerList (v : list player) (g : state) : state :=
  mkState (players g) (isHost g) (gameStarting g) (gameStarted g) (gameEndTimeout g) (cells g)
    v (startDisabled g) (modals g) (timeouts g) (nextHandle g).

Definition setStartDisabled (v : bool) (g : state) : state :=
  mkState (players g) (isHost g) (gameStarting g) (gameStarted g) (gameEndTimeout g) (cells g)
    (playerList g) v (modals g) (timeouts g) (nextHandle g).

Definition setModals (v : list string) (g : state) : state :=
  mkState (players g) (isHost g) (gameStarting g) (gameStarted g) (gameEndTimeout g) (cells g)
    (playerList g) (startDisabled g) v (timeouts g) (nextHandle g).

Definition setTimeouts (v : list (nat * Z)) (g : state) : state :=
  mkState (players g) (isHost g) (gameStarting g) (gameStarted g) (gameEndTimeout g) (cells g)
    (playerList g) (startDisabled g) (modals g) v (nextHandle g).

Definition setNextHandle (v : nat) (g : state) : state :=
  mkState (players g) (isHost g) (gameStarting g) (gameStarted g) (gameEndTimeout g) (cells g)
    (playerList g) (startDisabled g) (modals g) (timeouts g) v.

(** *** Roster and host controls *)

Definition updatePlayerList (g : state) : state :=
  setPlayerList (players g) g.

(** [players.length >= 0] *)
Definition canStartGame (g : state) : bool :=
  (0 <=? List.length (players g))%nat.

Definition updateStartButtonState (g : state) : state :=
  if negb (isHost g) then g
  else setStartDisabled (negb (canStartGame g)) g.

Definition addPlayer (name : string) (skinId : Z) (isHostPlayer : bool) (g : state) : state :=
  if isHostPlayer then updateStartButtonState (setIsHost true g)
  else updatePlayerList (setPlayers (players g ++ [mkPlayer name skinId]) g).

Definition addPlayerToList (name : string) (skinId : Z) (g : state) : state :=
  updatePlayerList (setPlayers (players g ++ [mkPlayer name skinId]) g).

Definition removePlayerFromList (nm : string) (g : state) : state :=
  updatePlayerList
    (setPlayers (filter (fun p => negb (String.eqb (name p) nm)) (players g)) g).

Definition refreshStartButton (g : state) : state :=
  if isHost g then setStartDisabled (negb (canStartGame g)) g else g.

Definition onPlayerJoined (name : string) (skinId : Z) (g : state) : state :=
  refreshStartButton (addPlayerToList name skinId g).

Definition onPlayerLeft (name : string) (g : state) : state :=
  refreshStartButton (removePlayerFromList name g).

(** *** Round timer *)

Definition clearTimeout (h : nat) (g : state) : state :=
  setTimeouts (filter (fun t => negb (Nat.eqb (fst t) h)) (timeouts g)) g.

Definition startGameTimer (g : state) : state :=
  if negb (isHost g) || negb (gameStarted g) then g
  else
    let h := nextHandle g in
    setGameEndTimeout (Some h)
      (setTimeouts (timeouts g ++ [(h, GAME_DURATION)]) (setNextHandle (S h) g)).

Definition startGame (g : state) : state :=
  let g1 := setGameStarted true g in
  if isHost g1 then startGameTimer g1 else g1.

(** *** Winner selection *)

(** [parseInt(cell.querySelector('.tap-counter').textContent) || 0] *)
Definition taps (c : cell) : Z :=
  JS.orZero (JS.parseInt (tapCounter c)).

(** The [forEach] over the cells, on the pair [(maxTaps, winner)];
    [winner = None] is [null]. *)
Definition scanCell (acc : Z * option string) (c : cell) : Z * option string :=
  if (taps c >? fst acc)%Z then (taps c, Some (playerName c)) else acc.

Definition findWinner (cs : list cell) : Z * option string :=
  fold_left scanCell cs (0%Z, None).

(** [`${winner} wins with ${maxTaps} taps!`] *)
Definition resultText (r : Z * option string) : string :=
  match snd r with Some w => w | None => "null" end
  ++ " wins with " ++ JS.numberToString (fst r) ++ " taps!".

Definition endGame (g : state) : state :=
  let g1 := setGameStarted false g in
  let g2 := match gameEndTimeout g1 with
            | Some h => setGameEndTimeout None (clearTimeout h g1)
            | None => g1
            end in
  setModals (modals g2 ++ [resultText (findWinner (cells g2))]) g2.

Definition resetGameState (g : state) : state :=
  setGameStarting false (updatePlayerList (setPlayers [] g)).

(** *** Player grid and tap display *)

(** [`player-${playerId}`]; an [undefined] id prints as ["undefined"]. *)
Definition cellIdOf (playerId : option string) : string :=
  "player-" ++ match playerId with Some i => i | None => "undefined" end.


(** The element built by [createPlayerCell] for a [playerName] that is
    [plainText]: the name is spliced into the [innerHTML] template, so the
    cell has the three children of the template and the name as the text
    of the first.  Markup in a name would be parsed into further elements;
    that is outside this record. *)
Definition createPlayerCell (playerId : option string) (playerName : string) : cell :=
  mkCell (cellIdOf playerId) playerName "0" false.


(** [document.getElementById]: the first element with that id. *)
Definition getElementById (i : string) (cs : list cell) : option cell :=
  find (fun c => String.eqb (cellId c) i) cs.

Fixpoint updateById (i : string) (f : cell -> cell) (cs : list cell) : list cell :=
  match cs with
  | [] => []
  | c :: cs' => if String.eqb (cellId c) i then f c :: cs' else c :: updateById i f cs'
  end.

(** What [showTapEffect] does to the cell it found; the sum is that of
    JavaScript while the counter stays below 2^53. *)
Definition tapCell (c : cell) : cell :=
  mkCell (cellId c) (playerName c)
    (JS.numberToString (JS.orZero (JS.parseInt (tapCounter c)) + 1)) true.

Definition showTapEffect (playerId : string) (g : state) : state :=
  match getElementById (cellIdOf (Some playerId)) (cells g) with
  | None => g
  | Some _ => setCells (updateById (cellIdOf (Some playerId)) tapCell (cells g)) g
  end.

(** *** Callbacks registered by the last [setCallbacks] *)

Definition onTapEvent (playerId : string) (g : state) : state :=
  showTapEffect playerId g.

Definition onGameStateUpdate (data : Net.GameState) (g : state) : state :=
  if Net.gameEnded data then endGame g else g.

Definition onGameStarting (g : state) : state := startGame g.

Definition onRoomClosed (g : state) : state := resetGameState g.

End Game.

(** ** The page: both scripts and the messages of the relay *)

Module Page.

Record page := mkPage { net : Net.state; game : Game.state }.

(** Messages of the relay that reach the callbacks of index.js. *)
Inductive incoming :=
| TapEvent (playerId : string)
| GameStateUpdate (data : Net.GameState)
| GameStarting
| RoomClosed.

(** One run of the listener that [setupSocketEventHandlers] installs for
    the message, with the callbacks that the last [setCallbacks] of
    index.js bound. *)
Definition receive (p : page) (m : incoming) : page :=
  match m with
  | TapEvent playerId => mkPage (net p) (Game.onTapEvent playerId (game p))
  | GameStateUpdate data => mkPage (net p) (Game.onGameStateUpdate data (game p))
  | GameStarting =>
      mkPage (Net.log "Received gameStarting event" (net p)) (Game.onGameStarting (game p))
  | RoomClosed =>
      mkPage (Net.showError "Host has disconnected" (net p)) (Game.onRoomClosed (game p))
  end.

(** The event name under which the relay sends a message. *)
Definition eventName (m : incoming) : string :=
  match m with
  | TapEvent _ => "tapEvent"
  | GameStateUpdate _ => "gameStateUpdate"
  | GameStarting => "gameStarting"
  | RoomClosed => "roomClosed"
  end.

(** Message [m] arrives on socket object [i].  When the object is
    connected, every listener attached to it for the event runs, in
    registration order; all of them are the closure that
    [setupSocketEventHandlers] installs, so each run is one [receive].  An
    object that is not connected, or has no listener for the event, lets
    the message pass without effect. *)
Definition deliver (i : nat) (m : incoming) (p : page) : page :=
  match nth_error (Net.sockets (net p)) i with
  | Some k =>
      if Net.connected k
      then Nat.iter (count_occ string_dec (Net.listeners k) (eventName m))
             (fun q => receive q m) p
      else p
  | None => p
  end.

Definition deliverAll (i : nat) (ms : list incoming) (p : page) : page :=
  fold_left (fun q m => deliver i m q) ms p.

(** How a listener of the document ends: it returns, or an exception
    leaves it at the point of the throw. *)
Inductive completion :=
| Returns (p : page)
| Throws (error : string) (p : page).

(** One run of the click listener that [addPlayer] attaches to
    [#start-game-button].  In the branch that is to start the round the
    first statement is [socket.emit('gameStart')]; index.js declares no
    [socket] (the variable of that name is local to the module
    networking.js, the page defines no global of that name), so evaluating
    the identifier throws a ReferenceError and the [startGame()] of the
    next line is not reached. *)
Definition startButtonClick (networkManagerDefined : bool) (p : page) : completion :=
  if (0 <=? List.length (Game.players (game p)))%nat then
    if networkManagerDefined then
      Throws "ReferenceError: socket is not defined" p
    else
      Returns (mkPage (Net.log "networkManager not available for starting game" (net p))
                 (game p))
  else Returns (mkPage (Net.showError "Error starting game" (net p)) (game p)).

(** A click on [#start-game-button], on a page where networking.js has
    defined [networkManager].  The button has a listener once [addPlayer]
    has registered the host, which is also what sets [isHost]; an exception
    that leaves a listener is reported by the browser and the page stays
    as the listener left it. *)
Definition clickStartButton (p : page) : page :=
  if Game.isHost (game p) then
    match startButtonClick true p with
    | Returns p' => p'
    | Throws _ p' => p'
    end
  else p.

(** The timeout with handle [h] expires and leaves the table.  The only
    timeouts of the table are those of [startGameTimer], whose callback
    sends [updateGameState({gameEnded: true})] and calls [endGame]. *)
Definition timeoutFires (h : nat) (p : page) : page :=
  if existsb (fun t => Nat.eqb (fst t) h) (Game.timeouts (game p)) then
    let g1 := Game.clearTimeout h (game p) in
    mkPage (Net.updateGameState (Net.mkGameState true) (net p)) (Game.endGame g1)
  else p.

End Page.

(** ** Vocabulary of the properties *)

Module Props.

(** The highest displayed count of a list of cells (0 for no cell). *)
Definition highest (cs : list Game.cell) : Z :=
  fold_right Z.max 0%Z (map Game.taps cs).

(** The name of the first cell, in document order, that displays [m]. *)
Definition firstWith (m : Z) (cs : list Game.cell) : option string :=
  option_map Game.playerName (find (fun c => Z.eqb (Game.taps c) m) cs).


(** Number of times the page has run [endGame]: each run appends one
    result modal and nothing else does. *)
Definition endings (p : Page.page) : nat :=
  List.length (Game.modals (Page.game p)).


Definition gameEndedMsg : Page.incoming :=
  Page.GameStateUpdate (Net.mkGameState true).

(** A code is made of characters of [letters]. *)
Definition overAlphabet (code : string) : Prop :=
  forall c, In c (list_ascii_of_string code) ->
            In c (list_ascii_of_string RoomCode.letters).

(** A code contains [w] as a substring. *)
Definition contains (code w : string) : Prop :=
  exists pre post, code = pre ++ w ++ post.

(** A well-formed room code. *)
Definition goodCode (code : string) : Prop :=
  String.length code = 4 /\
  overAlphabet code /\
  (forall c, In c (list_ascii_of_string code) -> c <> "I"%char /\ c <> "O"%char) /\
  (forall w, In w RoomCode.badWords -> ~ contains code w).

(** The heartbeat state of the networking script: at most one live
    interval, which is the one [pingInterval] names, and every handle in
    use is below the next one to be issued. *)
Definition heartbeatOk (s : Net.state) : Prop :=
  (Net.intervals s = [] \/
   exists h, Net.intervals s = [h] /\ Net.pingInterval s = Some h) /\
  (forall h, In h (Net.intervals s) -> h < Net.nextHandle s) /\
  (forall h, In h (Net.reconnects s) -> h < Net.nextHandle s).

(** The timer side of the networking state. *)
Definition timers (s : Net.state) : option nat * list nat * list nat * nat :=
  (Net.pingInterval s, Net.intervals s, Net.reconnects s, Net.nextHandle s).

(** "If no pong was received within the threshold when the heartbeat
    fires, the interval is cancelled, the socket is disconnected and one
    reconnect is scheduled", read for every state in which a live interval
    fires. *)
Definition recoversWhenStale (s : Net.state) (h : nat) (now : Z) : Prop :=
  In h (Net.intervals s) ->
  (now - Net.lastPongReceived s > 60000)%Z ->
  let s' := Net.step s (Net.IntervalFires h now) in
  Net.intervals s' = [] /\
  Net.isConnected s' = false /\
  Net.reconnects s' = (Net.reconnects s ++ [Net.nextHandle s])%list.

(** A session whose transport was lost after the connection came up. *)
Definition droppedLink : Net.state :=
  Net.run [Net.CallConnectToServer; Net.SocketConnects 0 "k1" 0; Net.SocketDrops 0]
    Net.init.



Definition hostConnected : Net.state :=
  Net.run [Net.CallCreateRoom "ABCD" 3; Net.SocketConnects 0 "h0st" 0] Net.init.

Definition hostInRound : Page.page :=
  let g := Game.onPlayerJoined "Ann" 2 (Game.addPlayer "You (Host)" 3 true Game.init) in
  let g := Game.setCells [Game.mkCell "player-ann" "Ann" "7" true] g in
  Page.mkPage hostConnected (Game.startGame g).

End Props.

(** ** Random picks of js/index.js *)

Module Picks.

(** The value of [Math.floor(Math.random() * n)] at one call, as a
    function of [n]; it lies below [n] whenever [n] is positive. *)
Definition random := nat -> nat.

(** [a === b] on values that are a string or [undefined] ([None]). *)
Definition same (a b : option string) : bool :=
  match a, b with
  | Some x, Some y => String.eqb x y
  | None, None => true
  | _, _ => false
  end.

Definition countdownSounds : list string :=
  ["./assets/audio/game_countdown_1.mp3"; "./assets/audio/game_countdown_2.mp3";
   "./assets/audio/game_countdown_3.mp3"; "./assets/audio/game_countdown_4.mp3";
   "./assets/audio/game_countdown_5.mp3"].

(** [getRandomCountdownSound] on the variable [lastCountdownSound]: the
    returned sound (an index out of range reads [undefined]) and the new
    value of the variable. *)
Definition getRandomCountdownSound (rand : random) (lastCountdownSound : option string)
  : option string * option string :=
  let availableSounds :=
    filter (fun sound => negb (same (Some sound) lastCountdownSound)) countdownSounds in
  let availableSounds :=
    if (List.length availableSounds =? 0)%nat then countdownSounds else availableSounds in
  let selectedSound := nth_error availableSounds (rand (List.length availableSounds)) in
  (selectedSound, selectedSound).

Definition allPFPs : list string :=
  ["./assets/pfp/pfp_1.png"; "./assets/pfp/pfp_2.png"; "./assets/pfp/pfp_3.png";
   "./assets/pfp/pfp_4.png"; "./assets/pfp/pfp_5.png"; "./assets/pfp/pfp_6.png";
   "./assets/pfp/pfp_7.png"; "./assets/pfp/pfp_8.png"].

(** [getRandomPFP] on the variable [takenPFPs]: the returned picture and
    the new value of the variable. *)
Definition getRandomPFP (rand : random) (takenPFPs : list (option string))
  : option string * list (option string) :=
  let availablePFPs :=
    filter (fun pfp => negb (existsb (same (Some pfp)) takenPFPs)) allPFPs in
  let reset := (List.length availablePFPs =? 0)%nat in
  let takenPFPs := if reset then [] else takenPFPs in
  let availablePFPs := if reset then allPFPs else availablePFPs in
  let selectedPFP := nth_error availablePFPs (rand (List.length availablePFPs)) in
  (selectedPFP, (takenPFPs ++ [selectedPFP])%list).

(** Successive calls of [getRandomPFP], one random value per call; the
    pictures are returned in call order. *)
Fixpoint drawPFPs (rands : list random) (takenPFPs : list (option string))
  : list (option string) * list (option string) :=
  match rands with
  | [] => ([], takenPFPs)
  | rand :: rands' =>
      let '(pfp, taken1) := getRandomPFP rand takenPFPs in
      let '(pfps, taken2) := drawPFPs rands' taken1 in
      (pfp :: pfps, taken2)
  end.

End Picks.

(** ** Remaining handlers of js/index.js and the event loop of the page *)

Module Handlers.

(** Outcome of [document.querySelector(`[data-name="${oldName}"]`)]: an
    element, [null], or a [SyntaxError] for a name that does not make a
    well-formed selector. *)
Inductive queryResult :=
| ItemFound
| ItemMissing
| SelectorInvalid.

(** The object returned by [players.find(p => p.name === oldName)] is
    mutated in place: the first entry with that name. *)
Fixpoint mutateFirst (oldName : string) (f : Game.player -> Game.player)
    (ps : list Game.player) : list Game.player :=
  match ps with
  | [] => []
  | p :: ps' =>
      if String.eqb (Game.name p) oldName then f p :: ps'
      else p :: mutateFirst oldName f ps'
  end.

(** [if (newName) { player.name = newName; ... }] *)
Definition rename (newName : option string) (p : Game.player) : Game.player :=
  match newName with
  | Some n => if String.eqb n "" then p else Game.mkPlayer n (Game.skinId p)
  | None => p
  end.

(** [if (newSkinId !== undefined && newSkinId !== player.skinId) { ... }] *)
Definition reskin (newSkinId : option Z) (p : Game.player) : Game.player :=
  match newSkinId with
  | Some k => if Z.eqb k (Game.skinId p) then p else Game.mkPlayer (Game.name p) k
  | None => p
  end.

(** The [onPlayerInfoUpdate] callback; [playerItem] is what the selector
    query gives. *)
Definition onPlayerInfoUpdate (playerItem : queryResult) (oldName : string)
    (newName : option string) (newSkinId : option Z) (g : Game.state) : Game.state :=
  match find (fun p => String.eqb (Game.name p) oldName) (Game.players g) with
  | None => g
  | Some _ =>
      match playerItem with
      | SelectorInvalid => g
      | ItemMissing => Game.updatePlayerList g
      | ItemFound =>
          Game.updatePlayerList
            (Game.setPlayers
               (mutateFirst oldName (fun p => reskin newSkinId (rename newName p))
                  (Game.players g)) g)
      end
  end.

(** The [touchstart] listener of a mobile page. *)
Definition touchStart (p : Page.page) : Page.page :=
  if negb (Game.gameStarted (Page.game p)) then p
  else Page.mkPage (Net.sendTap (Page.net p)) (Page.game p).

(** The click listener of [#create-lobby], for the state it changes: the
    code is generated, the room is requested and the host is registered.
    [None] when the generator has not returned within [fuel] rounds. *)
Definition createLobbyClick (fuel : nat) (rnd : RoomCode.source) (skin : Z)
    (p : Page.page) : option Page.page :=
  match RoomCode.generateRoomCode fuel rnd 0 with
  | Some code =>
      Some (Page.mkPage (Net.networkManager_createRoom code skin (Page.net p))
              (Game.addPlayer "You (Host)" skin true (Page.game p)))
  | None => None
  end.

(** What the event loop of the page can run: a message of the relay
    ([playerJoined] and [playerLeft] go through the listeners of
    [performCreateRoom], which log the name first), a listener of the
    document, a timeout of index.js, or an event of the networking script.
    A relay message is one run of its listener; a message that arrives on a
    socket with several listeners is as many [Relay] events.  The click
    listener of the start button leaves the page as it is
    ([Page.clickStartButton]) and is no event of its own. *)
Inductive event :=
| Relay (m : Page.incoming)
| PlayerJoined (name : string) (skinId : Z)
| PlayerLeft (name : string)
| PlayerInfoUpdate (playerItem : queryResult) (oldName : string)
    (newName : option string) (newSkinId : option Z)
| CreateLobbyClick (fuel : nat) (rnd : RoomCode.source) (skin : Z)
| TouchStart
| TimeoutFires (h : nat)
| Network (e : Net.event).

Definition step (p : Page.page) (e : event) : Page.page :=
  match e with
  | Relay m => Page.receive p m
  | PlayerJoined name skinId =>
      Page.mkPage (Net.log ("Player joined: " ++ name) (Page.net p))
        (Game.onPlayerJoined name skinId (Page.game p))
  | PlayerLeft name =>
      Page.mkPage (Net.log ("Player left: " ++ name) (Page.net p))
        (Game.onPlayerLeft name (Page.game p))
  | PlayerInfoUpdate playerItem oldName newName newSkinId =>
      Page.mkPage (Page.net p)
        (onPlayerInfoUpdate playerItem oldName newName newSkinId (Page.game p))
  | CreateLobbyClick fuel rnd skin =>
      match createLobbyClick fuel rnd skin p with
      | Some p' => p'
      | None => p
      end
  | TouchStart => touchStart p
  | TimeoutFires h => Page.timeoutFires h p
  | Network e => Page.mkPage (Net.step (Page.net p) e) (Page.game p)
  end.

Definition run (es : list event) (p : Page.page) : Page.page :=
  fold_left step es p.

(** The page once both scripts have loaded. *)
Definition loaded : Page.page := Page.mkPage Net.init Game.init.

End Handlers.

(** ** Vocabulary of the further properties *)

Module Inv.

(** A well-behaved random value. *)
Definition inRange (rand : Picks.random) : Prop :=
  forall n, 0 < n -> rand n < n.

(** What the handlers of the page keep true of the state of index.js. *)
Definition pageOk (g : Game.state) : Prop :=
  Game.gameStarting g = false /\
  Game.playerList g = Game.players g /\
  Game.startDisabled g = false /\
  Game.cells g = [] /\
  (forall t, In t (Game.timeouts g) -> snd t = Game.GAME_DURATION) /\
  (forall h, Game.gameEndTimeout g = Some h -> In h (map fst (Game.timeouts g))) /\
  (Game.timeouts g <> [] -> Game.isHost g = true) /\
  (forall m, In m (Game.modals g) -> m = "null wins with 0 taps!").

(** Every socket object that reports connected has an id, and the variable
    [socket] points into the table of socket objects. *)
Definition socketsOk (s : Net.state) : Prop :=
  (forall k, In k (Net.sockets s) -> Net.connected k = true -> Net.id k <> None) /\
  (forall i, Net.socket s = Some i -> i < List.length (Net.sockets s)).

(** Socket transformers that keep "connected implies has an id". *)
Definition keepsId (f : Net.Socket -> Net.Socket) : Prop :=
  forall k, (Net.connected k = true -> Net.id k <> None) ->
            Net.connected (f k) = true -> Net.id (f k) <> None.

(** Number of handlers attached for [ev] on a socket object. *)
Definition handlers (ev : string) (k : Net.Socket) : nat :=
  count_occ string_dec (Net.listeners k) ev.

(** The events for which [setupSocketEventHandlers] attaches a handler. *)
Definition relayEvents : list string :=
  ["pong"; "roomError"; "roomClosed"; "player-info-update"; "gameStarting";
   "tapEvent"; "gameStateUpdate"].

(** A run of pongs and heartbeat ticks in which every tick comes at most
    60000 ms after the last pong the script has seen. *)
Fixpoint timely (es : list Net.event) (s : Net.state) : Prop :=
  match es with
  | [] => True
  | Net.IntervalFires h now :: es' =>
      (now - Net.lastPongReceived s <= 60000)%Z /\
      timely es' (Net.step s (Net.IntervalFires h now))
  | Net.PongArrives i now :: es' => timely es' (Net.step s (Net.PongArrives i now))
  | _ :: _ => False
  end.

(** The page of a host who has clicked the lobby button (the generator
    drawing "AAAA") and whose socket has connected: alone in the room, and
    after a player has joined. *)
Definition hostAlone : Page.page :=
  Handlers.run [Handlers.CreateLobbyClick 1 (fun _ => 0) 3;
                Handlers.Network (Net.SocketConnects 0 "h0st" 0)] Handlers.loaded.

Definition hostWithAnn : Page.page :=
  Handlers.run [Handlers.PlayerJoined "Ann" 2] hostAlone.

(** That page once the [gameStarting] message of the relay has arrived. *)
Definition hostStarted : Page.page :=
  Page.deliver 0 Page.GameStarting hostWithAnn.

(** The codes of the denylist that can be drawn from [letters]. *)
Definition drawableBadWords : list string :=
  ["FUCK"; "DAMN"; "CUNT"; "TWAT"; "CRAP"; "STFU"].

End Inv.

(** * Facts about the JavaScript primitives *)

Lemma prefix_app (w s : string) :
  String.prefix w s = true <-> exists post, s = w ++ post.
Proof.
  revert s; induction w as [|a w IH]; intros s.
  - split; [intros _; now exists s | intros _; now destruct s].
  - destruct s as [|b s]; simpl.
    + split; [discriminate | intros [post H]; discriminate].
    + destruct (ascii_dec a b) as [->|Hab].
      * rewrite IH. split; intros [post H]; exists post.
        -- now rewrite H.
        -- now injection H.
      * split; [discriminate | intros [post H]; injection H; intros; congruence].
Qed.

Lemma includes_contains (s w : string) :
  JS.includes s w = true <-> Props.contains s w.
Proof.
  unfold Props.contains.
  induction s as [|a s IH].
  - change (JS.includes "" w) with (String.prefix w "" || false).
    rewrite orb_false_r, prefix_app. split.
    + intros [post H]. exists "", post. exact H.
    + intros [pre [post H]]. destruct pre; simpl in H.
      * now exists post.
      * discriminate.
  - change (JS.includes (String a s) w)
      with (String.prefix w (String a s) || JS.includes s w).
    rewrite orb_true_iff, prefix_app, IH. split.
    + intros [[post H] | [pre [post H]]].
      * exists "", post. exact H.
      * exists (String a pre), post. simpl. now rewrite H.
    + intros [pre [post H]]. destruct pre as [|b pre]; simpl in H.
      * left. now exists post.
      * right. injection H as _ H. now exists pre, post.
Qed.

Lemma digitPrefix_uint (d : uint) :
  JS.digitPrefix (NilEmpty.string_of_uint d) = NilEmpty.string_of_uint d.
Proof.
  induction d; simpl; try reflexivity; now rewrite IHd.
Qed.

Lemma parseInt_uint (d : uint) :
  d <> Nil ->
  JS.parseInt (NilEmpty.string_of_uint d) = Some (Z.of_N (N.of_uint d)).
Proof.
  intros Hd.
  destruct d; try congruence;
    match goal with
    | |- JS.parseInt (NilEmpty.string_of_uint ?u) = _ =>
        pose proof (NilEmpty.usu u) as Hu; pose proof (digitPrefix_uint u) as Hp
    end;
    simpl in Hu, Hp |- *; unfold JS.parseInt; simpl;
    injection Hp as Hp; rewrite Hp; unfold JS.digitsValue;
    rewrite Hu; reflexivity.
Qed.

Lemma parseInt_neg_uint (d : uint) :
  d <> Nil ->
  JS.parseInt (String "-" (NilEmpty.string_of_uint d)) = Some (- Z.of_N (N.of_uint d))%Z.
Proof.
  intros Hd.
  destruct d; try congruence;
    match goal with
    | |- JS.parseInt (String _ (NilEmpty.string_of_uint ?u)) = _ =>
        pose proof (NilEmpty.usu u) as Hu; pose proof (digitPrefix_uint u) as Hp
    end;
    simpl in Hu, Hp |- *; unfold JS.parseInt; simpl;
    injection Hp as Hp; rewrite Hp; unfold JS.digitsValue;
    rewrite Hu; reflexivity.
Qed.

Lemma nilzero_nonnil (d : uint) :
  d <> Nil -> NilZero.string_of_uint d = NilEmpty.string_of_uint d.
Proof. destruct d; congruence || reflexivity. Qed.

(** Reading back a number that was written as text gives the number. *)
Lemma parseInt_numberToString (z : Z) :
  JS.parseInt (JS.numberToString z) = Some z.
Proof.
  unfold JS.numberToString.
  destruct z as [|p|p]; [reflexivity| |]; simpl Z.to_int; simpl NilZero.string_of_int;
    pose proof (DecimalPos.Unsigned.to_uint_nonnil p) as Hn;
    rewrite (nilzero_nonnil Hn).
  - rewrite (parseInt_uint Hn). unfold N.of_uint.
    now rewrite DecimalPos.Unsigned.of_to.
  - rewrite (parseInt_neg_uint Hn). unfold N.of_uint.
    now rewrite DecimalPos.Unsigned.of_to.
Qed.

(** * Room codes *)

Lemma charAt_letters (i : nat) :
  i < String.length RoomCode.letters ->
  exists c, JS.charAt RoomCode.letters i = String c "" /\
            In c (list_ascii_of_string RoomCode.letters) /\
            c <> "I"%char /\ c <> "O"%char.
Proof.
  intros Hi.
  do 23 (destruct i as [|i];
         [eexists; split; [reflexivity | split; [simpl; tauto | split; discriminate]] | ]).
  simpl in Hi; lia.
Qed.

Lemma attempt_shape (rnd : RoomCode.source) (pos : nat) :
  (forall k, rnd k < String.length RoomCode.letters) ->
  let code := RoomCode.attempt rnd pos in
  String.length code = 4 /\ Props.overAlphabet code /\
  (forall c, In c (list_ascii_of_string code) -> c <> "I"%char /\ c <> "O"%char).
Proof.
  intros Hb.
  destruct (charAt_letters (Hb pos)) as (c1 & E1 & I1 & N1).
  destruct (charAt_letters (Hb (S pos))) as (c2 & E2 & I2 & N2).
  destruct (charAt_letters (Hb (S (S pos)))) as (c3 & E3 & I3 & N3).
  destruct (charAt_letters (Hb (S (S (S pos))))) as (c4 & E4 & I4 & N4).
  unfold RoomCode.attempt; cbn [RoomCode.drawCode].
  rewrite E1, E2, E3, E4. cbn [String.append]. cbv zeta.
  split; [reflexivity | split].
  - intros c Hc. cbn [list_ascii_of_string In] in Hc.
    destruct Hc as [<- | [<- | [<- | [<- | []]]]]; assumption.
  - intros c Hc. cbn [list_ascii_of_string In] in Hc.
    destruct Hc as [<- | [<- | [<- | [<- | []]]]]; assumption.
Qed.

Lemma rejected_false (code : string) :
  RoomCode.rejected code = false ->
  forall w, In w RoomCode.badWords -> ~ Props.contains code w.
Proof.
  unfold RoomCode.rejected. intros Hr w Hw Hc.
  apply includes_contains in Hc.
  assert (existsb (fun word => JS.includes code word) RoomCode.badWords = true) as Ht.
  { apply existsb_exists. now exists w. }
  congruence.
Qed.

(** C7.  Whatever the random draws (each an index into [letters]), a code
    returned by [generateRoomCode] has exactly 4 characters, all of them
    from [letters] and none of them I or O, and contains no word of the
    denylist; the loop fails to return within [fuel] rounds only when each
    of these rounds drew a denylisted code. *)
Theorem generateRoomCode_good (rnd : RoomCode.source)
    (Hb : forall k, rnd k < String.length RoomCode.letters) (fuel pos : nat) :
  match RoomCode.generateRoomCode fuel rnd pos with
  | Some code => Props.goodCode code
  | None => forall k, k < fuel ->
                      RoomCode.rejected (RoomCode.attempt rnd (pos + 4 * k)) = true
  end.
Proof.
  revert pos; induction fuel as [|fuel IH]; intros pos.
  - simpl. intros k Hk. lia.
  - cbn [RoomCode.generateRoomCode]. cbv zeta.
    destruct (RoomCode.rejected (RoomCode.attempt rnd pos)) eqn:Hr; cbn [negb].
    + specialize (IH (pos + 4)).
      destruct (RoomCode.generateRoomCode fuel rnd (pos + 4)); [exact IH|].
      intros [|k] Hk.
      * now replace (pos + 4 * 0) with pos by lia.
      * replace (pos + 4 * S k) with (pos + 4 + 4 * k) by lia.
        apply IH; lia.
    + destruct (attempt_shape rnd pos Hb) as (Hl & Ha & Hn).
      repeat split; try assumption; try (now apply Hn).
      now apply rejected_false.
Qed.

Lemma generateRoomCode_good_witness :
  RoomCode.generateRoomCode 2 (fun k => nth k [3; 0; 11; 12] 0) 0 = Some "AAAA" /\
  Props.goodCode "AAAA".
Proof.
  split; [reflexivity|].
  assert (Hb : forall k, (fun k => nth k [3; 0; 11; 12] 0) k < String.length RoomCode.letters).
  { intros k. do 4 (destruct k as [|k]; [simpl; lia|]). destruct k; simpl; lia. }
  exact (generateRoomCode_good (fun k => nth k [3; 0; 11; 12] 0) Hb 2 0).
Defined.

(** * Winner selection *)

Lemma highest_nonneg (cs : list Game.cell) : (0 <= Props.highest cs)%Z.
Proof. induction cs; unfold Props.highest in *; simpl; lia. Qed.


Lemma highest_attained (cs : list Game.cell) :
  Props.highest cs = 0%Z \/ exists c, In c cs /\ Game.taps c = Props.highest cs.
Proof.
  induction cs as [|d cs IH]; [now left|].
  change (Props.highest (d :: cs)) with (Z.max (Game.taps d) (Props.highest cs)).
  destruct (Z.max_spec (Game.taps d) (Props.highest cs)) as [[Hlt ->] | [Hle ->]].
  - destruct IH as [H0 | (c & Hc & Ht)]; [now left|].
    right. exists c. split; [now right | exact Ht].
  - right. exists d. split; [now left | reflexivity].
Qed.

(** The scan from an intermediate pair [(m0, w0)]. *)
Lemma scan_from (cs : list Game.cell) :
  forall (m0 : Z) (w0 : option string), (0 <= m0)%Z ->
    fold_left Game.scanCell cs (m0, w0) =
    (Z.max m0 (Props.highest cs),
     if (m0 <? Props.highest cs)%Z then Props.firstWith (Props.highest cs) cs else w0).
Proof.
  induction cs as [|c cs IH]; intros m0 w0 Hm.
  - simpl. unfold Props.highest; simpl.
    rewrite Z.max_l by lia. destruct (Z.ltb_spec m0 0); [lia | reflexivity].
  - pose proof (highest_nonneg cs) as Hh.
    change (Props.highest (c :: cs)) with (Z.max (Game.taps c) (Props.highest cs)).
    cbn [fold_left]. unfold Game.scanCell at 2. cbn [fst].
    unfold Props.firstWith. cbn [find].
    destruct (Z.gtb_spec (Game.taps c) m0) as [Hgt | Hle].
    + rewrite IH by lia. unfold Props.firstWith.
      destruct (Z.ltb_spec m0 (Z.max (Game.taps c) (Props.highest cs))); [|lia].
      destruct (Z.ltb_spec (Game.taps c) (Props.highest cs)) as [Hlt | Hge].
      * rewrite (Z.max_r (Game.taps c)) by lia.
        destruct (Z.eqb_spec (Game.taps c) (Props.highest cs)); [lia|].
        f_equal; lia.
      * rewrite (Z.max_l (Game.taps c)) by lia.
        rewrite Z.eqb_refl. f_equal; lia || reflexivity.
    + rewrite IH by lia. unfold Props.firstWith.
      f_equal; [lia|].
      destruct (Z.ltb_spec m0 (Props.highest cs)) as [Hlt | Hge].
      * destruct (Z.ltb_spec m0 (Z.max (Game.taps c) (Props.highest cs))); [|lia].
        rewrite (Z.max_r (Game.taps c)) by lia.
        destruct (Z.eqb_spec (Game.taps c) (Props.highest cs)); [lia | reflexivity].
      * destruct (Z.ltb_spec m0 (Z.max (Game.taps c) (Props.highest cs))); [lia | reflexivity].
Qed.

Lemma findWinner_highest (cs : list Game.cell) :
  Game.findWinner cs =
  (Props.highest cs,
   if (0 <? Props.highest cs)%Z then Props.firstWith (Props.highest cs) cs else None).
Proof.
  unfold Game.findWinner. rewrite scan_from by lia.
  pose proof (highest_nonneg cs). f_equal; lia.
Qed.

Lemma endGame_modals (g : Game.state) :
  Game.modals (Game.endGame g) =
  (Game.modals g ++ [Game.resultText (Game.findWinner (Game.cells g))])%list.
Proof. unfold Game.endGame. simpl. now destruct (Game.gameEndTimeout g). Qed.



(** C9.  When every cell displays 0 (also when there is no cell), the scan
    ends with [maxTaps = 0] and [winner = null], and the modal that
    [endGame] appends is rendered from that null winner. *)
Theorem endGame_no_winner_at_zero (g : Game.state) :
  (forall c, In c (Game.cells g) -> Game.taps c = 0%Z) ->
  Game.findWinner (Game.cells g) = (0%Z, None) /\
  Game.modals (Game.endGame g) = (Game.modals g ++ ["null wins with 0 taps!"])%list.
Proof.
  intros Hz.
  assert (Props.highest (Game.cells g) = 0%Z) as Hh.
  { destruct (highest_attained (Game.cells g)) as [H | (c & Hc & Ht)]; [exact H|].
    rewrite <- Ht. now apply Hz. }
  assert (Game.findWinner (Game.cells g) = (0%Z, None)) as Hw.
  { rewrite findWinner_highest, Hh. reflexivity. }
  split; [exact Hw|].
  rewrite endGame_modals, Hw. reflexivity.
Qed.

Lemma endGame_no_winner_at_zero_witness :
  let g := Game.setCells [Game.createPlayerCell (Some "a") "A"] Game.init in
  Game.findWinner (Game.cells g) = (0%Z, None) /\
  Game.modals (Game.endGame g) = ["null wins with 0 taps!"].
Proof.
  apply (endGame_no_winner_at_zero
           (Game.setCells [Game.createPlayerCell (Some "a") "A"] Game.init)).
  intros c [<- | []]. reflexivity.
Defined.

(** * Host controls *)

(** C10 does not hold of the code.  [canStartGame] is true for every
    roster and the click listener of the start button always passes its
    player-count test, but the branch that is to start the round throws at
    [socket.emit('gameStart')], before [startGame()]: whatever the page,
    a click leaves it as it is, and a connected host alone in the room who
    clicks the enabled button has started no round and armed no timer,
    where [startGame()] itself would have started one. *)
Theorem startButtonClick_throws_before_startGame :
  (forall g, Game.canStartGame g = true) /\
  (forall p, Page.startButtonClick true p
             = Page.Throws "ReferenceError: socket is not defined" p) /\
  (forall p, Page.clickStartButton p = p) /\
  (let p := Inv.hostAlone in
   Game.isHost (Page.game p) = true /\
   Game.players (Page.game p) = [] /\
   Game.startDisabled (Page.game p) = false /\
   Net.isConnected (Page.net p) = true /\
   Game.gameStarted (Page.game (Page.clickStartButton p)) = false /\
   Game.timeouts (Page.game (Page.clickStartButton p)) = [] /\
   option_map Net.emitted (Net.current (Page.net (Page.clickStartButton p)))
     = Some [Net.CreateRoom "AAAA" (Some "h0st") None] /\
   Game.gameStarted (Game.startGame (Page.game p)) = true /\
   Game.timeouts (Game.startGame (Page.game p)) = [(1, 60000%Z)]).
Proof.
  assert (forall p, Page.startButtonClick true p
                    = Page.Throws "ReferenceError: socket is not defined" p) as Hthrow
    by reflexivity.
  split; [reflexivity|]. split; [exact Hthrow|]. split.
  - intros p. unfold Page.clickStartButton. rewrite Hthrow.
    now destruct (Game.isHost (Page.game p)).
  - vm_compute. repeat split.
Qed.

(** * Tap display *)

Lemma getElementById_updateById_other (i j : string) (f : Game.cell -> Game.cell)
    (cs : list Game.cell) :
  (forall d, Game.cellId (f d) = Game.cellId d) ->
  j <> i ->
  Game.getElementById j (Game.updateById i f cs) = Game.getElementById j cs.
Proof.
  intros Hf Hji. unfold Game.getElementById.
  induction cs as [|d cs IH]; [reflexivity|].
  cbn [find Game.updateById].
  destruct (String.eqb_spec (Game.cellId d) i) as [E|E].
  - cbn [find]. rewrite Hf.
    destruct (String.eqb_spec (Game.cellId d) j) as [E'|E']; [congruence | reflexivity].
  - cbn [find]. now rewrite IH.
Qed.

Lemma showTapEffect_other (p : string) (g : Game.state) (j : string) :
  j <> Game.cellIdOf (Some p) ->
  Game.getElementById j (Game.cells (Game.showTapEffect p g))
    = Game.getElementById j (Game.cells g).
Proof.
  intros H. unfold Game.showTapEffect.
  destruct (Game.getElementById (Game.cellIdOf (Some p)) (Game.cells g)); [|reflexivity].
  cbn [Game.cells Game.setCells].
  now apply getElementById_updateById_other.
Qed.

(** * End of the round *)

Lemma endGame_clears (g : Game.state) :
  Game.gameEndTimeout (Game.endGame g) = None /\
  Game.gameStarted (Game.endGame g) = false.
Proof.
  unfold Game.endGame. cbn [Game.gameEndTimeout Game.setGameStarted].
  destruct (Game.gameEndTimeout g) eqn:E; split; try reflexivity.
  exact E.
Qed.






(** * Room reset *)

(** C3 does not hold of the code.  [resetGameState] empties the roster
    and its rendering and clears [gameStarting], but it leaves the round
    timer pending, [gameStarted] and [isHost] as they were and the tap
    counters on the page; on a host in a running round the room-closed
    event is followed by the timer firing and a result modal. *)
Theorem resetGameState_leaves_round_state :
  (forall g,
     let g' := Game.resetGameState g in
     Game.players g' = [] /\ Game.playerList g' = [] /\ Game.gameStarting g' = false /\
     Game.gameEndTimeout g' = Game.gameEndTimeout g /\
     Game.timeouts g' = Game.timeouts g /\
     Game.gameStarted g' = Game.gameStarted g /\
     Game.isHost g' = Game.isHost g /\
     Game.cells g' = Game.cells g) /\
  (let p := Page.receive Props.hostInRound Page.RoomClosed in
   Game.players (Page.game p) = [] /\
   Game.gameEndTimeout (Page.game p) = Some 1 /\
   Game.timeouts (Page.game p) = [(1, 60000%Z)] /\
   Game.gameStarted (Page.game p) = true /\
   map Game.taps (Game.cells (Page.game p)) = [7%Z] /\
   Game.modals (Page.game (Page.timeoutFires 1 p)) = ["Ann wins with 7 taps!"]).
Proof.
  split.
  - intros g. repeat split.
  - vm_compute. repeat split.
Qed.

(** * The networking script *)

Section Frames.

Variable f : Net.Socket -> Net.Socket.
Variable s : Net.state.

Lemma timers_onCurrent : Props.timers (Net.onCurrent f s) = Props.timers s.
Proof. unfold Net.onCurrent. now destruct (Net.socket s). Qed.

Lemma lastPong_onCurrent :
  Net.lastPongReceived (Net.onCurrent f s) = Net.lastPongReceived s.
Proof. unfold Net.onCurrent. now destruct (Net.socket s). Qed.

Lemma nth_error_updateAt (l : list Net.Socket) (i : nat) :
  nth_error (Net.updateAt i f l) i = option_map f (nth_error l i).
Proof.
  revert i; induction l as [|x l IH]; intros [|i]; try reflexivity.
  simpl. apply IH.
Qed.

Lemma current_onCurrent :
  Net.current (Net.onCurrent f s) = option_map f (Net.current s).
Proof.
  unfold Net.current, Net.onCurrent.
  destruct (Net.socket s) as [i|] eqn:E; cbn [Net.socket Net.sockets Net.setSockets].
  - rewrite E. apply nth_error_updateAt.
  - now rewrite E.
Qed.

End Frames.

Lemma isConnected_disconnect (s : Net.state) :
  Net.isConnected (Net.disconnect s) = false.
Proof.
  unfold Net.isConnected, Net.disconnect. rewrite current_onCurrent.
  now destruct (Net.current s).
Qed.

Lemma timers_setup (s : Net.state) :
  Props.timers (Net.setupSocketEventHandlers s) = Props.timers s.
Proof.
  unfold Net.setupSocketEventHandlers. destruct (Net.socket s); [|reflexivity].
  unfold Net.on. now rewrite !timers_onCurrent.
Qed.

Lemma timers_connectToServer (s : Net.state) :
  Props.timers (Net.connectToServer s) = Props.timers s.
Proof. unfold Net.connectToServer. now destruct (Net.isConnected s). Qed.

Lemma timers_performCreateRoom (code : string) (skin : option Z) (s : Net.state) :
  Props.timers (Net.performCreateRoom code skin s) = Props.timers s.
Proof.
  unfold Net.performCreateRoom, Net.on, Net.off, Net.emit. cbv zeta.
  now rewrite !timers_onCurrent.
Qed.

Lemma timers_performJoin (code name : string) (skin : Z) (s : Net.state) :
  Props.timers (Net.performJoin code name skin s) = Props.timers s.
Proof.
  unfold Net.performJoin, Net.on, Net.emit. cbv zeta.
  now rewrite !timers_onCurrent.
Qed.

Lemma timers_runDeferred (ds : list Net.deferred) (s : Net.state) :
  Props.timers (fold_left (fun acc d => Net.runDeferred d acc) ds s) = Props.timers s.
Proof.
  revert s; induction ds as [|d ds IH]; intros s; [reflexivity|].
  cbn [fold_left]. rewrite IH.
  destruct d; [apply timers_performCreateRoom | apply timers_performJoin].
Qed.

Lemma heartbeatOk_timers (s s' : Net.state) :
  Props.timers s' = Props.timers s -> Props.heartbeatOk s -> Props.heartbeatOk s'.
Proof.
  unfold Props.timers, Props.heartbeatOk. intros [= Hp Hi Hr Hn].
  now rewrite Hp, Hi, Hr, Hn.
Qed.

Lemma filter_single (h : nat) :
  filter (fun m => negb (Nat.eqb m h)) [h] = [].
Proof. simpl. now rewrite Nat.eqb_refl. Qed.

Lemma heartbeatOk_onConnect (now : Z) (s : Net.state) :
  Props.heartbeatOk s -> Props.heartbeatOk (Net.onConnect now s).
Proof.
  intros Hok. pose proof Hok as [Hone [Hi Hr]].
  unfold Net.onConnect. cbv zeta.
  apply (heartbeatOk_timers (timers_setup _)).
  cbn [Net.pingInterval Net.setLastPongReceived Net.log].
  set (s1 := Net.setLastPongReceived now (Net.log "Connected to server" s)).
  assert (Props.timers s1 = Props.timers s) as Ht by reflexivity.
  assert (Net.intervals
            (match Net.pingInterval s with
             | Some h => Net.clearInterval (Some h) s1
             | None => s1
             end) = []) as Hnil.
  { destruct Hone as [H0 | (h & Hh & Hp)].
    - destruct (Net.pingInterval s); cbn; rewrite H0; reflexivity.
    - rewrite Hp. cbn. rewrite Hh. apply filter_single. }
  assert (Net.reconnects
            (match Net.pingInterval s with
             | Some h => Net.clearInterval (Some h) s1
             | None => s1
             end) = Net.reconnects s) as Hrec
      by (destruct (Net.pingInterval s); reflexivity).
  assert (Net.nextHandle
            (match Net.pingInterval s with
             | Some h => Net.clearInterval (Some h) s1
             | None => s1
             end) = Net.nextHandle s) as Hnext
      by (destruct (Net.pingInterval s); reflexivity).
  unfold Props.heartbeatOk, Net.setPingTimer. cbv zeta.
  cbn [Net.intervals Net.pingInterval Net.reconnects Net.nextHandle
       Net.setPingInterval Net.setIntervals Net.setNextHandle].
  rewrite Hnil, Hrec, Hnext. cbn [app].
  split; [right; eexists; split; reflexivity|].
  split.
  - intros h [<- | []]. lia.
  - intros h Hh. specialize (Hr h Hh). lia.
Qed.

Lemma timers_inv (s : Net.state) (p : option nat) (il rl : list nat) (n : nat) :
  Props.timers s = (p, il, rl, n) ->
  Net.pingInterval s = p /\ Net.intervals s = il /\
  Net.reconnects s = rl /\ Net.nextHandle s = n.
Proof. unfold Props.timers. intros [= -> -> -> ->]. repeat split. Qed.

(** The timers after the recovery branch of the heartbeat. *)
Lemma timers_recovery (s : Net.state) :
  Props.heartbeatOk s ->
  Props.timers
    (Net.scheduleReconnect
       (Net.disconnect
          (Net.clearInterval (Net.pingInterval (Net.emit Net.Ping s))
             (Net.log "Connection lost, attempting to reconnect..."
                (Net.emit Net.Ping s)))))
  = (Net.pingInterval s, [], (Net.reconnects s ++ [Net.nextHandle s])%list,
     S (Net.nextHandle s)).
Proof.
  intros [Hone _].
  assert (Props.timers (Net.emit Net.Ping s) = Props.timers s) as Ht
      by apply timers_onCurrent.
  injection Ht as Hp Hi Hr Hn. rewrite Hp.
  unfold Net.scheduleReconnect. cbv zeta. unfold Props.timers.
  cbn [Net.intervals Net.pingInterval Net.reconnects Net.nextHandle
       Net.setReconnects Net.setNextHandle].
  pose proof (timers_onCurrent
    (fun k => Net.mkSocket false None (Net.emitted k) (Net.onceConnect k) (Net.listeners k))
    (Net.clearInterval (Net.pingInterval s)
       (Net.log "Connection lost, attempting to reconnect..." (Net.emit Net.Ping s)))) as Hd.
  fold Net.disconnect in Hd. injection Hd as -> -> -> ->.
  destruct Hone as [H0 | (h & Hh & Hph)].
  - destruct (Net.pingInterval s); cbn; rewrite ?Hp, ?Hi, ?H0, Hr, Hn; reflexivity.
  - rewrite Hph in Hp |- *. cbn. rewrite ?Hp, Hi, Hh, Hr, Hn, filter_single. reflexivity.
Qed.

Lemma heartbeatOk_heartbeat (now : Z) (s : Net.state) :
  Props.heartbeatOk s -> Props.heartbeatOk (Net.heartbeat now s).
Proof.
  intros Hok. pose proof Hok as [Hone [Hi Hr]].
  unfold Net.heartbeat. destruct (Net.isConnected s); [|exact Hok]. cbv zeta.
  destruct (now - Net.lastPongReceived (Net.emit Net.Ping s) >? 60000)%Z.
  - destruct (timers_inv (timers_recovery Hok)) as (Hp' & Hi' & Hr' & Hn').
    unfold Props.heartbeatOk. rewrite Hi', Hr', Hn'.
    split; [now left|]. split; [intros h []|].
    intros h Hh. apply in_app_or in Hh as [Hh | [<- | []]]; [|lia].
    specialize (Hr h Hh). lia.
  - refine (heartbeatOk_timers _ Hok). apply timers_onCurrent.
Qed.

Lemma heartbeatOk_step (s : Net.state) (e : Net.event) :
  Props.heartbeatOk s -> Props.heartbeatOk (Net.step s e).
Proof.
  intros Hok. destruct e; cbn [Net.step].
  - exact (heartbeatOk_timers (timers_connectToServer s) Hok).
  - unfold Net.networkManager_createRoom, Net.createRoom.
    destruct (negb (Net.isConnected s)).
    + refine (heartbeatOk_timers _ Hok). unfold Net.onceConnected.
      now rewrite timers_onCurrent, timers_connectToServer.
    + exact (heartbeatOk_timers (timers_performCreateRoom _ _ s) Hok).
  - unfold Net.joinRoom. destruct (negb (Net.isConnected s)).
    + refine (heartbeatOk_timers _ Hok). unfold Net.onceConnected.
      now rewrite timers_onCurrent, timers_connectToServer.
    + exact (heartbeatOk_timers (timers_performJoin _ _ _ s) Hok).
  - refine (heartbeatOk_timers _ Hok). unfold Net.updatePlayerInfo. cbv zeta.
    destruct (Net.isConnected _); [|reflexivity].
    unfold Net.emit. now rewrite timers_onCurrent.
  - refine (heartbeatOk_timers _ Hok). unfold Net.sendTap.
    destruct (Net.isConnected s); [|reflexivity].
    unfold Net.emit. now rewrite timers_onCurrent.
  - refine (heartbeatOk_timers _ Hok). unfold Net.updateGameState.
    destruct (Net.isConnected s); [|reflexivity].
    unfold Net.emit. now rewrite timers_onCurrent.
  - unfold Net.socketConnects.
    destruct (nth_error (Net.sockets s) i) as [k|]; [|exact Hok].
    destruct (Net.connected k); [exact Hok|]. cbv zeta.
    refine (heartbeatOk_timers (timers_runDeferred _ _) _).
    apply heartbeatOk_onConnect.
    refine (heartbeatOk_timers _ Hok). reflexivity.
  - refine (heartbeatOk_timers _ Hok). reflexivity.
  - refine (heartbeatOk_timers _ Hok). unfold Net.pongArrives.
    destruct (nth_error (Net.sockets s) i) as [k|]; [|reflexivity].
    now destruct (Net.connected k && _).
  - unfold Net.intervalFires. destruct (existsb _ _); [|exact Hok].
    now apply heartbeatOk_heartbeat.
  - unfold Net.reconnectFires. destruct (existsb _ _); [|exact Hok].
    refine (heartbeatOk_timers (timers_connectToServer _) _).
    destruct Hok as [Hone [Hi Hr]]. unfold Props.heartbeatOk.
    cbn [Net.intervals Net.pingInterval Net.reconnects Net.nextHandle Net.setReconnects].
    split; [exact Hone|]. split; [exact Hi|].
    intros h' Hh'. apply filter_In in Hh' as [Hh' _]. now apply Hr.
Qed.

Lemma heartbeatOk_run (es : list Net.event) (s : Net.state) :
  Props.heartbeatOk s -> Props.heartbeatOk (Net.run es s).
Proof.
  revert s; induction es as [|e es IH]; intros s Hok; [exact Hok|].
  apply IH. now apply heartbeatOk_step.
Qed.

Lemma heartbeatOk_init : Props.heartbeatOk Net.init.
Proof. split; [now left|]. split; intros h []. Qed.

Lemma existsb_eqb_In (h : nat) (l : list nat) :
  In h l -> existsb (Nat.eqb h) l = true.
Proof. intros H. apply existsb_exists. exists h. now rewrite Nat.eqb_refl. Qed.

(** C6, as the code has it.  In every state the script can reach there is
    at most one live heartbeat interval.  When a live interval fires while
    the socket reports connected and the last pong is more than 60000 ms old, the
    interval is cancelled and none is left alive, the socket is
    disconnected, exactly one reconnect timeout is added to the pending
    ones, and no interval can fire again before a new connection installs
    one.  When the socket does not report connected, the firing interval
    changes nothing. *)
Theorem heartbeat_timeout_recovery (es : list Net.event) (h : nat) (now : Z) :
  let s := Net.run es Net.init in
  List.length (Net.intervals s) <= 1 /\
  (In h (Net.intervals s) ->
   Net.isConnected s = true ->
   (now - Net.lastPongReceived s > 60000)%Z ->
   let s' := Net.step s (Net.IntervalFires h now) in
   Net.intervals s' = [] /\
   Net.isConnected s' = false /\
   Net.reconnects s' = (Net.reconnects s ++ [Net.nextHandle s])%list /\
   ~ In (Net.nextHandle s) (Net.reconnects s) /\
   (forall h' now', Net.step s' (Net.IntervalFires h' now') = s')) /\
  (Net.isConnected s = false -> Net.step s (Net.IntervalFires h now) = s).
Proof.
  intros s.
  assert (Props.heartbeatOk s) as Hok by (apply heartbeatOk_run, heartbeatOk_init).
  split; [|split].
  - destruct Hok as [[H0 | (k & Hk & _)] _]; [rewrite H0 | rewrite Hk]; simpl; lia.
  - intros Hin Hconn Hstale s'.
    assert (s' = Net.scheduleReconnect
                   (Net.disconnect
                      (Net.clearInterval (Net.pingInterval (Net.emit Net.Ping s))
                         (Net.log "Connection lost, attempting to reconnect..."
                            (Net.emit Net.Ping s))))) as Hs'.
    { subst s'. cbn [Net.step]. unfold Net.intervalFires.
      rewrite (existsb_eqb_In _ _ Hin). unfold Net.heartbeat. rewrite Hconn. cbv zeta.
      unfold Net.emit at 1. rewrite lastPong_onCurrent.
      destruct (Z.gtb_spec (now - Net.lastPongReceived s) 60000) as [_|Hle]; [|lia].
      reflexivity. }
    pose proof (timers_recovery Hok) as Ht. rewrite <- Hs' in Ht.
    destruct (timers_inv Ht) as (_ & Hnil & Hrec & _).
    split; [exact Hnil|]. split; [|split; [exact Hrec|split]].
    + rewrite Hs'. unfold Net.isConnected, Net.scheduleReconnect, Net.current.
      cbn [Net.socket Net.sockets Net.setReconnects Net.setNextHandle].
      apply isConnected_disconnect.
    + destruct Hok as (_ & _ & Hlt). intros Hc. specialize (Hlt _ Hc). lia.
    + intros h' now'. cbn [Net.step]. unfold Net.intervalFires. now rewrite Hnil.
  - intros Hdown. cbn [Net.step]. unfold Net.intervalFires, Net.heartbeat.
    rewrite Hdown. now destruct (existsb (Nat.eqb h) (Net.intervals s)).
Qed.

Lemma heartbeat_timeout_recovery_witness :
  let s := Net.run [Net.CallConnectToServer; Net.SocketConnects 0 "k1" 0] Net.init in
  Net.intervals s = [1] /\ Net.isConnected s = true /\
  let s' := Net.step s (Net.IntervalFires 1 60001) in
  Net.intervals s' = [] /\ Net.isConnected s' = false /\ Net.reconnects s' = [2].
Proof.
  cbv zeta. split; [reflexivity | split; [reflexivity|]].
  destruct (heartbeat_timeout_recovery
              [Net.CallConnectToServer; Net.SocketConnects 0 "k1" 0] 1 60001)
    as (_ & H & _).
  destruct (H (or_introl eq_refl) eq_refl eq_refl) as (Hi & Hc & Hr & _).
  split; [exact Hi | split; [exact Hc | exact Hr]].
Defined.

(** C6, as stated, fails when the socket no longer reports connected: the
    heartbeat that fires 70 s after the last pong on a dropped link does
    nothing, its interval stays alive and no reconnect is scheduled. *)
Lemma recoversWhenStale_fails_when_dropped :
  ~ Props.recoversWhenStale Props.droppedLink 1 70000.
Proof.
  intros H. destruct (H (or_introl eq_refl) eq_refl) as [Hi _].
  vm_compute in Hi. discriminate.
Qed.

(** * Room creation *)

(** C4 does not hold of the code.  [createRoom] declares [roomCode] only
    and calls [performCreateRoom(roomCode)], so the request carries the
    caller's code and the socket id but [hostSkin: undefined], whatever
    skin the caller passed: both when the socket is already connected and
    when the request waits for the connection. *)
Theorem createRoom_sends_undefined_hostSkin (code : string) (skin : Z) :
  option_map Net.emitted
    (Net.current (Net.networkManager_createRoom code skin Props.hostConnected))
    = Some [Net.CreateRoom "ABCD" (Some "h0st") None;
            Net.CreateRoom code (Some "h0st") None] /\
  option_map Net.emitted
    (Net.current (Net.run [Net.CallCreateRoom code skin; Net.SocketConnects 0 "k1" 0]
                    Net.init))
    = Some [Net.CreateRoom code (Some "k1") None].
Proof. split; reflexivity. Qed.

(** * Updates while disconnected *)

(** C8.  While the session is disconnected, [updatePlayerInfo] writes its
    two console lines and nothing else: no socket object changes (nothing
    is emitted and nothing is queued for the next connection), the error
    banner shows nothing new, and the variables and timers of the script
    keep their values. *)
Theorem updatePlayerInfo_dropped (data : Net.PlayerInfo) (s : Net.state) :
  Net.isConnected s = false ->
  let s' := Net.updatePlayerInfo data s in
  s' = Net.log "NetworkManager: Cannot send update - socket not connected"
         (Net.log "NetworkManager: Sending player info update:" s) /\
  Net.sockets s' = Net.sockets s /\
  Net.socket s' = Net.socket s /\
  Net.shownErrors s' = Net.shownErrors s /\
  Props.timers s' = Props.timers s /\
  Net.lastPongReceived s' = Net.lastPongReceived s /\
  Net.console s' =
    (Net.console s ++ ["NetworkManager: Sending player info update:";
                       "NetworkManager: Cannot send update - socket not connected"])%list.
Proof.
  intros Hc s'. subst s'. unfold Net.updatePlayerInfo. cbv zeta.
  change (Net.isConnected (Net.log "NetworkManager: Sending player info update:" s))
    with (Net.isConnected s).
  rewrite Hc. repeat split.
  cbn [Net.console Net.log]. now rewrite <- app_assoc.
Qed.

Lemma updatePlayerInfo_dropped_witness :
  let d := Net.mkPlayerInfo "Ann" (Some "Bea") None in
  Net.sockets (Net.updatePlayerInfo d Net.init) = [] /\
  Net.shownErrors (Net.updatePlayerInfo d Net.init) = [].
Proof.
  cbv zeta.
  destruct (@updatePlayerInfo_dropped (Net.mkPlayerInfo "Ann" (Some "Bea") None)
              Net.init eq_refl) as (_ & Hs & _ & He & _).
  split; [exact Hs | exact He].
Defined.

(** * Further properties of the room-code generator *)

Lemma string_length_app (a b : string) :
  String.length (a ++ b) = String.length a + String.length b.
Proof. induction a as [|c a IH]; simpl; [reflexivity | now rewrite IH]. Qed.

Lemma string_app_nil_r (a : string) : a ++ "" = a.
Proof. induction a as [|c a IH]; simpl; [reflexivity | now rewrite IH]. Qed.

Lemma string_length_zero (a : string) : String.length a = 0 -> a = "".
Proof. destruct a; [reflexivity | discriminate]. Qed.

Lemma contains_same_length (code w : string) :
  String.length code = String.length w -> Props.contains code w -> code = w.
Proof.
  intros Hl (pre & post & ->).
  rewrite !string_length_app in Hl.
  assert (pre = "") as -> by (apply string_length_zero; lia).
  assert (post = "") as -> by (apply string_length_zero; lia).
  simpl. apply string_app_nil_r.
Qed.

(** X1.  Of the ten denylisted words only six can be drawn from the
    alphabet (FVCK, SHIT, DICK and COCK need V, I or O): a drawn code is
    rejected exactly when it is one of FUCK, DAMN, CUNT, TWAT, CRAP, STFU. *)
Theorem rejected_iff_drawable_word (rnd : RoomCode.source)
    (Hb : forall k, rnd k < String.length RoomCode.letters) (pos : nat) :
  RoomCode.rejected (RoomCode.attempt rnd pos) = true <->
  In (RoomCode.attempt rnd pos) Inv.drawableBadWords.
Proof.
  destruct (attempt_shape rnd pos Hb) as (Hl & Ha & Hn).
  remember (RoomCode.attempt rnd pos) as code eqn:Hcode. clear Hcode.
  split.
  - unfold RoomCode.rejected. intros H.
    apply existsb_exists in H as (w & Hw & Hi).
    apply includes_contains in Hi.
    assert (code = w) as Hcw.
    { apply contains_same_length; [|exact Hi].
      rewrite Hl. simpl in Hw.
      repeat (destruct Hw as [<- | Hw]; [reflexivity|]). destruct Hw. }
    simpl in Hw. unfold Inv.drawableBadWords. simpl.
    destruct Hw as [E|[E|[E|[E|[E|[E|[E|[E|[E|[E|[]]]]]]]]]]]; subst w;
      try (rewrite Hcw; auto 10; fail); exfalso.
    + assert (In "V"%char (list_ascii_of_string RoomCode.letters)) as Hv
          by (apply Ha; rewrite Hcw; simpl; auto 10).
      simpl in Hv. repeat (destruct Hv as [Hv|Hv]; [discriminate|]). exact Hv.
    + destruct (Hn "I"%char) as [H1 _]; [rewrite Hcw; simpl; auto 10 | now apply H1].
    + destruct (Hn "I"%char) as [H1 _]; [rewrite Hcw; simpl; auto 10 | now apply H1].
    + destruct (Hn "O"%char) as [_ H1]; [rewrite Hcw; simpl; auto 10 | now apply H1].
  - unfold Inv.drawableBadWords. simpl.
    intros [E|[E|[E|[E|[E|[E|[]]]]]]]; rewrite <- E; reflexivity.
Qed.

Lemma rejected_iff_drawable_word_witness :
  RoomCode.rejected "DAMN" = true <-> In "DAMN" Inv.drawableBadWords.
Proof.
  assert (Hb : forall k, (fun k => nth k [3; 0; 11; 12] 0) k < String.length RoomCode.letters).
  { intros k. do 4 (destruct k as [|k]; [simpl; lia|]). destruct k; simpl; lia. }
  exact (rejected_iff_drawable_word (fun k => nth k [3; 0; 11; 12] 0) Hb 0).
Defined.

(** X2.  The generator returns the first attempt that is not rejected: if
    the first [k] rounds draw rejected codes and round [k] does not, every
    run of more than [k] rounds returns the code of round [k]. *)
Theorem generateRoomCode_first_accepted (rnd : RoomCode.source) (k : nat) :
  forall (pos fuel : nat),
  (forall j, j < k -> RoomCode.rejected (RoomCode.attempt rnd (pos + 4 * j)) = true) ->
  RoomCode.rejected (RoomCode.attempt rnd (pos + 4 * k)) = false ->
  k < fuel ->
  RoomCode.generateRoomCode fuel rnd pos = Some (RoomCode.attempt rnd (pos + 4 * k)).
Proof.
  induction k as [|k IH]; intros pos fuel Hrej Hacc Hf.
  - destruct fuel as [|fuel]; [lia|]. cbn [RoomCode.generateRoomCode]. cbv zeta.
    replace (pos + 4 * 0) with pos in * by lia. now rewrite Hacc.
  - destruct fuel as [|fuel]; [lia|]. cbn [RoomCode.generateRoomCode]. cbv zeta.
    pose proof (Hrej 0 ltac:(lia)) as H0.
    replace (pos + 4 * 0) with pos in H0 by lia. rewrite H0. cbn [negb].
    replace (pos + 4 * S k) with (pos + 4 + 4 * k) in * by lia.
    apply IH; [|exact Hacc|lia].
    intros j Hj. specialize (Hrej (S j) ltac:(lia)).
    now replace (pos + 4 * S j) with (pos + 4 + 4 * j) in Hrej by lia.
Qed.

Lemma generateRoomCode_first_accepted_witness :
  RoomCode.generateRoomCode 5 (fun k => nth k [3; 0; 11; 12; 1; 2; 3; 4] 0) 0
    = Some "BCDE".
Proof.
  apply (@generateRoomCode_first_accepted
           (fun k => nth k [3; 0; 11; 12; 1; 2; 3; 4] 0) 1 0 5).
  - intros [|j] Hj; [reflexivity | lia].
  - reflexivity.
  - lia.
Defined.

(** * Further properties of winner selection *)

Lemma highest_perm (cs cs' : list Game.cell) :
  Permutation cs cs' -> Props.highest cs = Props.highest cs'.
Proof.
  induction 1 as [|x l l' _ IH|x y l|l l' l'' _ IH1 _ IH2].
  - reflexivity.
  - change (Z.max (Game.taps x) (Props.highest l) = Z.max (Game.taps x) (Props.highest l')).
    now rewrite IH.
  - change (Z.max (Game.taps y) (Z.max (Game.taps x) (Props.highest l))
            = Z.max (Game.taps x) (Z.max (Game.taps y) (Props.highest l))).
    lia.
  - now rewrite IH1.
Qed.

Lemma winner_none_iff (cs : list Game.cell) :
  snd (Game.findWinner cs) = None <-> Props.highest cs = 0%Z.
Proof.
  rewrite findWinner_highest. cbn [snd].
  pose proof (highest_nonneg cs) as Hn.
  destruct (Z.ltb_spec 0 (Props.highest cs)) as [Hpos|Hle].
  - split; [|lia]. intros Hnone. exfalso.
    destruct (highest_attained cs) as [H0 | (c & Hc & Ht)]; [lia|].
    unfold Props.firstWith in Hnone.
    destruct (find (fun c => Z.eqb (Game.taps c) (Props.highest cs)) cs) eqn:Hf;
      [discriminate|].
    pose proof (find_none _ _ Hf c Hc) as Hfalse. cbv beta in Hfalse.
    rewrite Ht, Z.eqb_refl in Hfalse. discriminate.
  - split; [lia | reflexivity].
Qed.

(** X3.  The winning count, and whether there is a winner at all, do not
    depend on the order of the cells; only who wins a tie does. *)
Theorem maxTaps_order_independent (cs cs' : list Game.cell) :
  Permutation cs cs' ->
  fst (Game.findWinner cs) = fst (Game.findWinner cs') /\
  (snd (Game.findWinner cs) = None <-> snd (Game.findWinner cs') = None).
Proof.
  intros Hp. pose proof (highest_perm Hp) as Hh.
  split.
  - now rewrite !findWinner_highest.
  - rewrite !winner_none_iff. now rewrite Hh.
Qed.

Lemma maxTaps_order_independent_witness :
  let a := Game.mkCell "player-a" "A" "4" false in
  let b := Game.mkCell "player-b" "B" "4" false in
  fst (Game.findWinner [a; b]) = fst (Game.findWinner [b; a]) /\
  Game.findWinner [a; b] <> Game.findWinner [b; a].
Proof.
  cbv zeta. split.
  - apply (maxTaps_order_independent
             (cs := [Game.mkCell "player-a" "A" "4" false;
                     Game.mkCell "player-b" "B" "4" false])
             (cs' := [Game.mkCell "player-b" "B" "4" false;
                      Game.mkCell "player-a" "A" "4" false])).
    apply perm_swap.
  - vm_compute. discriminate.
Defined.

Lemma scan_skips_nonpositive (cs : list Game.cell) :
  forall acc, (0 <= fst acc)%Z ->
    fold_left Game.scanCell (filter (fun c => (0 <? Game.taps c)%Z) cs) acc
    = fold_left Game.scanCell cs acc.
Proof.
  induction cs as [|c cs IH]; intros [m w] Hm; [reflexivity|].
  cbn [filter fold_left]. cbn [fst] in Hm.
  destruct (Z.ltb_spec 0 (Game.taps c)) as [Hpos|Hle].
  - cbn [fold_left]. apply IH.
    unfold Game.scanCell. cbn [fst].
    destruct (Z.gtb_spec (Game.taps c) m); cbn [fst]; lia.
  - rewrite IH by exact Hm.
    f_equal. unfold Game.scanCell. cbn [fst].
    destruct (Z.gtb_spec (Game.taps c) m); [lia | reflexivity].
Qed.

(** X4.  Cells whose counter shows 0, a negative number or no number at
    all have no influence on the result: scanning only the cells with a
    positive count gives the same winner and the same count. *)
Theorem findWinner_ignores_nonpositive (cs : list Game.cell) :
  Game.findWinner (filter (fun c => (0 <? Game.taps c)%Z) cs) = Game.findWinner cs.
Proof. unfold Game.findWinner. apply scan_skips_nonpositive. simpl. lia. Qed.

(** X5.  [endGame] is not guarded against a second run, but a second run
    only repeats the result: it appends the same text once more and
    changes nothing else. *)
Theorem endGame_again (g : Game.state) :
  Game.endGame (Game.endGame g) =
  Game.setModals
    (Game.modals (Game.endGame g) ++ [Game.resultText (Game.findWinner (Game.cells g))])
    (Game.endGame g).
Proof.
  destruct g as [ps host starting started [h|] cs pl sd ms ts nh]; reflexivity.
Qed.

(** * Further properties of the tap display *)

Lemma cellIdOf_inj (p q : string) :
  Game.cellIdOf (Some p) = Game.cellIdOf (Some q) -> p = q.
Proof. unfold Game.cellIdOf. simpl. now intros [= ->]. Qed.

Lemma tapCell_id (d : Game.cell) : Game.cellId (Game.tapCell d) = Game.cellId d.
Proof. reflexivity. Qed.

Lemma updateById_comm (i j : string) (f : Game.cell -> Game.cell) (cs : list Game.cell) :
  i <> j ->
  (forall d, Game.cellId (f d) = Game.cellId d) ->
  Game.updateById i f (Game.updateById j f cs)
  = Game.updateById j f (Game.updateById i f cs).
Proof.
  intros Hij Hf. induction cs as [|c cs IH]; [reflexivity|].
  cbn [Game.updateById].
  destruct (String.eqb_spec (Game.cellId c) j) as [Ej|Ej];
    destruct (String.eqb_spec (Game.cellId c) i) as [Ei|Ei];
    cbn [Game.updateById]; rewrite ?Hf.
  - congruence.
  - destruct (String.eqb_spec (Game.cellId c) i); [congruence|].
    destruct (String.eqb_spec (Game.cellId c) j); [reflexivity | congruence].
  - destruct (String.eqb_spec (Game.cellId c) i); [|congruence].
    destruct (String.eqb_spec (Game.cellId c) j); [congruence | reflexivity].
  - destruct (String.eqb_spec (Game.cellId c) i); [congruence|].
    destruct (String.eqb_spec (Game.cellId c) j); [congruence|].
    now rewrite IH.
Qed.

(** X6.  Tap events of two players commute: the page reached does not
    depend on the order in which the relay interleaves them. *)
Theorem taps_commute (p q : string) (g : Game.state) :
  Game.showTapEffect p (Game.showTapEffect q g)
  = Game.showTapEffect q (Game.showTapEffect p g).
Proof.
  destruct (string_dec p q) as [->|Hpq]; [reflexivity|].
  assert (Game.cellIdOf (Some p) <> Game.cellIdOf (Some q)) as Hid
      by (intros E; apply Hpq, cellIdOf_inj, E).
  assert (Game.cellIdOf (Some q) <> Game.cellIdOf (Some p)) as Hid' by congruence.
  unfold Game.showTapEffect at 1 3.
  rewrite (@showTapEffect_other q g _ Hid), (@showTapEffect_other p g _ Hid').
  unfold Game.showTapEffect.
  destruct (Game.getElementById (Game.cellIdOf (Some p)) (Game.cells g));
    destruct (Game.getElementById (Game.cellIdOf (Some q)) (Game.cells g));
    try reflexivity.
  cbn [Game.cells Game.setCells].
  rewrite (@updateById_comm _ _ Game.tapCell (Game.cells g) Hid tapCell_id). reflexivity.
Qed.





(** * The roster *)

Lemma filter_count_length (nm : string) (ps : list Game.player) :
  List.length (filter (fun p => negb (String.eqb (Game.name p) nm)) ps)
  + count_occ string_dec (map Game.name ps) nm = List.length ps.
Proof.
  induction ps as [|p ps IH]; [reflexivity|].
  cbn [filter map count_occ].
  destruct (String.eqb_spec (Game.name p) nm) as [E|E];
    destruct (string_dec (Game.name p) nm); try congruence; cbn [negb List.length]; lia.
Qed.

(** X8.  A [playerLeft] event removes every roster entry with that name
    (all of them when several players share the name) and no other; the
    remaining entries keep their order, and the rendered list follows. *)
Theorem onPlayerLeft_removes_all_named (nm : string) (g : Game.state) :
  let g' := Game.onPlayerLeft nm g in
  ~ In nm (map Game.name (Game.players g')) /\
  (forall p, Game.name p <> nm -> (In p (Game.players g') <-> In p (Game.players g))) /\
  List.length (Game.players g') + count_occ string_dec (map Game.name (Game.players g)) nm
    = List.length (Game.players g) /\
  (forall ps qs, Game.players g = (ps ++ qs)%list ->
     Game.players g' = (filter (fun p => negb (String.eqb (Game.name p) nm)) ps ++
                        filter (fun p => negb (String.eqb (Game.name p) nm)) qs)%list) /\
  Game.playerList g' = Game.players g'.
Proof.
  intros g'.
  assert (Game.players g' = filter (fun p => negb (String.eqb (Game.name p) nm))
                              (Game.players g)) as Hp.
  { subst g'. unfold Game.onPlayerLeft, Game.refreshStartButton, Game.removePlayerFromList.
    cbn [Game.isHost Game.updatePlayerList Game.setPlayerList Game.setPlayers].
    destruct (Game.isHost g); reflexivity. }
  assert (Game.playerList g' = Game.players g') as Hl.
  { subst g'. unfold Game.onPlayerLeft, Game.refreshStartButton, Game.removePlayerFromList.
    cbn [Game.isHost Game.updatePlayerList Game.setPlayerList Game.setPlayers].
    destruct (Game.isHost g); reflexivity. }
  rewrite Hp. repeat split.
  - intros Hin. apply in_map_iff in Hin as (p & Hn & Hf).
    apply filter_In in Hf as [_ Hf]. rewrite Hn, String.eqb_refl in Hf. discriminate.
  - intros Hin. now apply filter_In in Hin.
  - intros Hin. apply filter_In. split; [exact Hin|].
    now destruct (String.eqb_spec (Game.name p) nm).
  - apply filter_count_length.
  - intros ps qs ->. apply filter_app.
  - now rewrite <- Hp.
Qed.

Lemma filter_all_kept (nm : string) (ps : list Game.player) :
  ~ In nm (map Game.name ps) ->
  filter (fun p => negb (String.eqb (Game.name p) nm)) ps = ps.
Proof.
  induction ps as [|p ps IH]; [reflexivity|].
  cbn [map In filter]. intros Hn.
  destruct (String.eqb_spec (Game.name p) nm) as [E|E]; [tauto|].
  cbn [negb]. rewrite IH; tauto.
Qed.

(** X9.  A player who joins under a name nobody in the roster has and then
    leaves puts the roster back as it was; under a name already in use the
    leave also removes the earlier holder of the name. *)
Theorem join_then_leave (nm : string) (skin : Z) (g : Game.state) :
  let g' := Game.onPlayerLeft nm (Game.onPlayerJoined nm skin g) in
  (~ In nm (map Game.name (Game.players g)) -> Game.players g' = Game.players g) /\
  (In nm (map Game.name (Game.players g)) ->
     List.length (Game.players g') < List.length (Game.players g)).
Proof.
  intros g'.
  assert (Game.players g' = filter (fun p => negb (String.eqb (Game.name p) nm))
                              (Game.players g)) as Hp.
  { subst g'. destruct g as [ps host starting started t cs pl sd ms ts nh].
    assert (filter (fun p => negb (String.eqb (Game.name p) nm))
              (ps ++ [Game.mkPlayer nm skin])
            = filter (fun p => negb (String.eqb (Game.name p) nm)) ps) as Hf.
    { rewrite filter_app. cbn [filter Game.name]. rewrite String.eqb_refl.
      cbn [negb]. apply app_nil_r. }
    destruct host; cbn; exact Hf. }
  rewrite Hp. split.
  - apply filter_all_kept.
  - intros Hin. pose proof (filter_count_length nm (Game.players g)) as Hc.
    apply (count_occ_In string_dec) in Hin. lia.
Qed.

Lemma join_then_leave_witness :
  let g := Game.onPlayerJoined "Ann" 2 Game.init in
  Game.players (Game.onPlayerLeft "Bea" (Game.onPlayerJoined "Bea" 1 g)) = Game.players g.
Proof.
  cbv zeta.
  apply (proj1 (join_then_leave "Bea" 1 (Game.onPlayerJoined "Ann" 2 Game.init))).
  simpl. intros [H|[]]. discriminate.
Defined.

Lemma mutateFirst_length (nm : string) (f : Game.player -> Game.player)
    (ps : list Game.player) :
  List.length (Handlers.mutateFirst nm f ps) = List.length ps.
Proof.
  induction ps as [|p ps IH]; [reflexivity|].
  cbn [Handlers.mutateFirst]. destruct (String.eqb (Game.name p) nm); simpl; congruence.
Qed.

Lemma find_name_none (nm : string) (ps : list Game.player) :
  ~ In nm (map Game.name ps) ->
  find (fun p => String.eqb (Game.name p) nm) ps = None.
Proof.
  induction ps as [|p ps IH]; [reflexivity|].
  cbn [map In find]. intros Hn.
  destruct (String.eqb_spec (Game.name p) nm); [tauto|]. apply IH. tauto.
Qed.

(** X10.  [onPlayerInfoUpdate] never adds or removes a roster entry,
    whatever the selector query gives, and an update for a name that is
    not in the roster changes nothing at all. *)
Theorem onPlayerInfoUpdate_keeps_roster_size (q : Handlers.queryResult) (oldName : string)
    (newName : option string) (newSkinId : option Z) (g : Game.state) :
  let g' := Handlers.onPlayerInfoUpdate q oldName newName newSkinId g in
  List.length (Game.players g') = List.length (Game.players g) /\
  (~ In oldName (map Game.name (Game.players g)) -> g' = g).
Proof.
  intros g'. subst g'. unfold Handlers.onPlayerInfoUpdate. split.
  - destruct (find _ (Game.players g)); [|reflexivity].
    destruct q; try reflexivity.
    cbn [Game.players Game.updatePlayerList Game.setPlayerList Game.setPlayers].
    apply mutateFirst_length.
  - intros Hn. now rewrite (find_name_none _ _ Hn).
Qed.

Lemma onPlayerInfoUpdate_keeps_roster_size_witness :
  let g := Game.onPlayerJoined "Ann" 2 Game.init in
  Handlers.onPlayerInfoUpdate Handlers.ItemFound "Bea" (Some "Cleo") (Some 4%Z) g = g.
Proof.
  cbv zeta.
  apply (proj2 (onPlayerInfoUpdate_keeps_roster_size Handlers.ItemFound "Bea"
                  (Some "Cleo") (Some 4%Z) (Game.onPlayerJoined "Ann" 2 Game.init))).
  simpl. intros [H|[]]. discriminate.
Defined.

Lemma mutateFirst_split (nm : string) (f : Game.player -> Game.player)
    (ps : list Game.player) (p0 : Game.player) :
  find (fun p => String.eqb (Game.name p) nm) ps = Some p0 ->
  exists pre post,
    ps = (pre ++ p0 :: post)%list /\
    ~ In nm (map Game.name pre) /\
    Game.name p0 = nm /\
    Handlers.mutateFirst nm f ps = (pre ++ f p0 :: post)%list.
Proof.
  induction ps as [|p ps IH]; [discriminate|].
  cbn [find Handlers.mutateFirst].
  destruct (String.eqb_spec (Game.name p) nm) as [E|E].
  - intros [= <-]. exists [], ps. repeat split; [|exact E]. intros [].
  - intros Hf. destruct (IH Hf) as (pre & post & -> & Hn & Hp0 & Hm).
    exists (p :: pre), post. repeat split.
    + cbn [map In]. intros [H|H]; [congruence | exact (Hn H)].
    + exact Hp0.
    + cbn [app]. now rewrite Hm.
Qed.

(** X11.  When the selector query finds the item, an info update with a
    non-empty new name renames the first roster entry that carries the old
    name, gives it the new skin when one is sent, and leaves every other
    entry, also later entries with the same old name, as it was; the
    rendered list follows.  No check is made that the new name is free. *)
Theorem onPlayerInfoUpdate_renames_first (oldName newName : string) (newSkinId : option Z)
    (g : Game.state) (p0 : Game.player) :
  newName <> "" ->
  find (fun p => String.eqb (Game.name p) oldName) (Game.players g) = Some p0 ->
  let g' := Handlers.onPlayerInfoUpdate Handlers.ItemFound oldName (Some newName)
              newSkinId g in
  exists pre post,
    Game.players g = (pre ++ p0 :: post)%list /\
    ~ In oldName (map Game.name pre) /\
    Game.players g' =
      (pre ++ Game.mkPlayer newName
                (match newSkinId with Some k => k | None => Game.skinId p0 end)
           :: post)%list /\
    Game.playerList g' = Game.players g'.
Proof.
  intros Hne Hf g'. subst g'. unfold Handlers.onPlayerInfoUpdate. rewrite Hf.
  cbn [Game.players Game.playerList Game.updatePlayerList Game.setPlayerList Game.setPlayers].
  destruct (@mutateFirst_split oldName
              (fun p => Handlers.reskin newSkinId (Handlers.rename (Some newName) p))
              _ _ Hf)
    as (pre & post & Hps & Hn & _ & Hm).
  exists pre, post. split; [exact Hps|]. split; [exact Hn|]. split; [|reflexivity].
  rewrite Hm. repeat f_equal.
  unfold Handlers.rename.
  destruct (String.eqb_spec newName ""); [congruence|].
  unfold Handlers.reskin. cbn [Game.skinId Game.name].
  destruct newSkinId as [k|]; [|reflexivity].
  destruct (Z.eqb_spec k (Game.skinId p0)) as [->|]; reflexivity.
Qed.

Lemma onPlayerInfoUpdate_renames_first_witness :
  let g := Game.onPlayerJoined "Ann" 3 (Game.onPlayerJoined "Ann" 2 Game.init) in
  Game.players
    (Handlers.onPlayerInfoUpdate Handlers.ItemFound "Ann" (Some "Bea") None g)
  = [Game.mkPlayer "Bea" 2; Game.mkPlayer "Ann" 3].
Proof.
  cbv zeta.
  destruct (@onPlayerInfoUpdate_renames_first "Ann" "Bea" None
              (Game.onPlayerJoined "Ann" 3 (Game.onPlayerJoined "Ann" 2 Game.init))
              (Game.mkPlayer "Ann" 2) ltac:(discriminate) eq_refl)
    as (pre & post & _ & _ & _ & _).
  reflexivity.
Defined.

(** * Round timers *)

(** X12.  Starting the round twice on the host arms two timeouts and
    remembers only the second: [endGame] then cancels the second and
    leaves the first pending, and when that one fires the round ends once
    more. *)
Theorem double_start_leaks_timer (p : Page.page) :
  Game.isHost (Page.game p) = true ->
  let h := Game.nextHandle (Page.game p) in
  let g2 := Game.startGame (Game.startGame (Page.game p)) in
  Game.gameEndTimeout g2 = Some (S h) /\
  Game.timeouts g2 =
    (Game.timeouts (Page.game p) ++ [(h, 60000%Z); (S h, 60000%Z)])%list /\
  In (h, 60000%Z) (Game.timeouts (Game.endGame g2)) /\
  ~ In (S h, 60000%Z) (Game.timeouts (Game.endGame g2)) /\
  Props.endings (Page.timeoutFires h (Page.mkPage (Page.net p) (Game.endGame g2)))
    = 2 + Props.endings p.
Proof.
  intros Hh h g2.
  assert (g2 = Game.setGameEndTimeout (Some (S h))
                 (Game.setTimeouts
                    (Game.timeouts (Page.game p) ++ [(h, 60000%Z); (S h, 60000%Z)])
                    (Game.setNextHandle (S (S h)) (Game.setGameStarted true (Page.game p)))))
    as Hg2.
  { subst g2 h. unfold Game.startGame, Game.startGameTimer.
    cbn [Game.isHost Game.gameStarted Game.setGameStarted Game.setGameEndTimeout
         Game.setTimeouts Game.setNextHandle Game.nextHandle Game.timeouts].
    rewrite Hh. cbn [negb orb].
    cbn [Game.isHost Game.gameStarted Game.setGameStarted Game.setGameEndTimeout
         Game.setTimeouts Game.setNextHandle Game.nextHandle Game.timeouts].
    rewrite Hh. cbn [negb orb]. unfold Game.GAME_DURATION.
    rewrite <- app_assoc. reflexivity. }
  assert (Game.timeouts (Game.endGame g2) =
          filter (fun t => negb (Nat.eqb (fst t) (S h)))
            (Game.timeouts (Page.game p) ++ [(h, 60000%Z); (S h, 60000%Z)])) as Hte.
  { rewrite Hg2. reflexivity. }
  assert (In (h, 60000%Z) (Game.timeouts (Game.endGame g2))) as Hin.
  { rewrite Hte. apply filter_In. split.
    - apply in_or_app. right. now left.
    - cbn [fst]. destruct (Nat.eqb_spec h (S h)); [lia | reflexivity]. }
  split; [now rewrite Hg2|]. split; [now rewrite Hg2|]. split; [exact Hin|]. split.
  - rewrite Hte. intros Hf. apply filter_In in Hf as [_ Hf].
    cbn [fst] in Hf. rewrite Nat.eqb_refl in Hf. discriminate.
  - unfold Page.timeoutFires. cbn [Page.game Page.net].
    assert (existsb (fun t => Nat.eqb (fst t) h) (Game.timeouts (Game.endGame g2)) = true)
      as ->.
    { apply existsb_exists. exists (h, 60000%Z). split; [exact Hin|].
      cbn [fst]. apply Nat.eqb_refl. }
    unfold Props.endings. cbn [Page.game].
    rewrite endGame_modals, length_app.
    change (Game.modals (Game.clearTimeout h (Game.endGame g2)))
      with (Game.modals (Game.endGame g2)).
    rewrite endGame_modals, length_app. rewrite Hg2. simpl. lia.
Qed.

Lemma double_start_leaks_timer_witness :
  let p := Page.mkPage Net.init (Game.addPlayer "You (Host)" 3 true Game.init) in
  In (1, 60000%Z)
    (Game.timeouts (Game.endGame (Game.startGame (Game.startGame (Page.game p))))).
Proof.
  cbv zeta.
  exact (proj1 (proj2 (proj2 (@double_start_leaks_timer
           (Page.mkPage Net.init (Game.addPlayer "You (Host)" 3 true Game.init))
           eq_refl)))).
Defined.

Lemma isConnected_frame (s s' : Net.state) :
  Net.sockets s' = Net.sockets s -> Net.socket s' = Net.socket s ->
  Net.isConnected s' = Net.isConnected s.
Proof. unfold Net.isConnected, Net.current. now intros -> ->. Qed.

(** X13.  A touch sends a tap only while [gameStarted] is set.  Once the
    round has ended touches send nothing; a room-closed reset does not
    clear the flag, so touches on a connected page keep sending
    [playerTap] after it. *)
Theorem touch_sends_only_while_started (p : Page.page) :
  (Game.gameStarted (Page.game p) = false -> Handlers.touchStart p = p) /\
  Handlers.touchStart (Page.receive p Props.gameEndedMsg)
    = Page.receive p Props.gameEndedMsg /\
  (Game.gameStarted (Page.game p) = true ->
   Net.isConnected (Page.net p) = true ->
   Page.net (Handlers.touchStart (Page.receive p Page.RoomClosed))
     = Net.emit Net.PlayerTap (Page.net (Page.receive p Page.RoomClosed))).
Proof.
  split; [|split].
  - intros H. unfold Handlers.touchStart. now rewrite H.
  - unfold Handlers.touchStart, Props.gameEndedMsg, Page.receive, Game.onGameStateUpdate.
    cbn [Net.gameEnded Page.game].
    now rewrite (proj2 (endGame_clears (Page.game p))).
  - intros Hs Hc. unfold Handlers.touchStart, Page.receive.
    cbn [Page.game Page.net]. unfold Game.onRoomClosed, Game.resetGameState.
    cbn [Game.gameStarted Game.setGameStarting Game.updatePlayerList Game.setPlayerList
         Game.setPlayers].
    rewrite Hs. cbn [negb Page.net]. unfold Net.sendTap.
    rewrite (@isConnected_frame (Page.net p)
               (Net.showError "Host has disconnected" (Page.net p)) eq_refl eq_refl).
    now rewrite Hc.
Qed.

Lemma touch_sends_only_while_started_witness :
  option_map Net.emitted
    (Net.current
       (Page.net (Handlers.touchStart (Page.receive Props.hostInRound Page.RoomClosed))))
  = Some [Net.CreateRoom "ABCD" (Some "h0st") None; Net.PlayerTap].
Proof.
  rewrite (proj2 (proj2 (touch_sends_only_while_started Props.hostInRound))
             eq_refl eq_refl).
  reflexivity.
Defined.

(** * Random picks *)

Lemma same_eq (a b : option string) : Picks.same a b = true <-> a = b.
Proof.
  destruct a as [x|], b as [y|]; simpl; try (split; congruence).
  rewrite String.eqb_eq. split; congruence.
Qed.

Lemma filter_nil_all (A : Type) (f : A -> bool) (l : list A) :
  filter f l = [] -> forall x, In x l -> f x = false.
Proof.
  induction l as [|a l IH]; [intros _ x []|].
  cbn [filter]. destruct (f a) eqn:E; [discriminate|].
  intros H x [<-|Hx]; [exact E | now apply IH].
Qed.

Lemma length_zero_nil (A : Type) (l : list A) :
  (List.length l =? 0)%nat = true -> l = [].
Proof. destruct l; [reflexivity | discriminate]. Qed.

Lemma countdown_available (last : option string) :
  filter (fun sound => negb (Picks.same (Some sound) last)) Picks.countdownSounds <> [].
Proof.
  intros H.
  pose proof (filter_nil_all _ _ H "./assets/audio/game_countdown_1.mp3"
                ltac:(simpl; auto)) as H1.
  pose proof (filter_nil_all _ _ H "./assets/audio/game_countdown_2.mp3"
                ltac:(simpl; auto)) as H2.
  cbv beta in H1, H2.
  apply negb_false_iff, same_eq in H1. apply negb_false_iff, same_eq in H2.
  rewrite <- H1 in H2. discriminate.
Qed.

Lemma countdown_spec (rand : Picks.random) (last : option string) :
  Inv.inRange rand ->
  exists s,
    Picks.getRandomCountdownSound rand last = (Some s, Some s) /\
    In s Picks.countdownSounds /\ Some s <> last.
Proof.
  intros Hr. unfold Picks.getRandomCountdownSound. cbv zeta.
  set (av := filter (fun sound => negb (Picks.same (Some sound) last))
               Picks.countdownSounds).
  pose proof (countdown_available last) as Hne. fold av in Hne.
  destruct (List.length av =? 0)%nat eqn:E.
  { apply length_zero_nil in E. contradiction. }
  assert (0 < List.length av) as Hpos by (destruct av; [contradiction | simpl; lia]).
  destruct (nth_error av (rand (List.length av))) as [s|] eqn:Hs.
  - exists s. split; [reflexivity|].
    apply nth_error_In in Hs. unfold av in Hs. apply filter_In in Hs as [Hin Hf].
    split; [exact Hin|]. intros Heq. apply negb_true_iff in Hf.
    apply same_eq in Heq. congruence.
  - exfalso. apply nth_error_None in Hs. specialize (Hr _ Hpos). lia.
Qed.

(** X14.  [getRandomCountdownSound] returns one of the five countdown
    sounds, never the one it returned last, so two calls in a row never
    give the same sound. *)
Theorem countdown_never_repeats (rand1 rand2 : Picks.random) (last : option string) :
  Inv.inRange rand1 -> Inv.inRange rand2 ->
  let '(sound1, last1) := Picks.getRandomCountdownSound rand1 last in
  let '(sound2, last2) := Picks.getRandomCountdownSound rand2 last1 in
  (exists s1, sound1 = Some s1 /\ In s1 Picks.countdownSounds) /\
  (exists s2, sound2 = Some s2 /\ In s2 Picks.countdownSounds) /\
  sound1 <> last /\ sound2 <> sound1.
Proof.
  intros H1 H2.
  destruct (countdown_spec last H1) as (s1 & -> & Hin1 & Hn1).
  destruct (countdown_spec (Some s1) H2) as (s2 & -> & Hin2 & Hn2).
  split; [now exists s1|]. split; [now exists s2|]. split; assumption.
Qed.

Lemma countdown_never_repeats_witness :
  fst (Picks.getRandomCountdownSound (fun _ => 0)
         (snd (Picks.getRandomCountdownSound (fun _ => 0) (Some ""))))
  <> fst (Picks.getRandomCountdownSound (fun _ => 0) (Some "")).
Proof.
  assert (Hr : Inv.inRange (fun _ => 0)) by (intros n Hn; exact Hn).
  pose proof (@countdown_never_repeats (fun _ => 0) (fun _ => 0) (Some "") Hr Hr) as H.
  cbv in H. destruct H as (_ & _ & _ & H). exact H.
Defined.

Lemma available_in (taken : list (option string)) (p : string) :
  In p (filter (fun pfp => negb (existsb (Picks.same (Some pfp)) taken)) Picks.allPFPs)
  <-> In p Picks.allPFPs /\ ~ In (Some p) taken.
Proof.
  rewrite filter_In. split; intros [Hin H]; (split; [exact Hin|]).
  - intros Ht. apply negb_true_iff in H.
    assert (existsb (Picks.same (Some p)) taken = true) as Hex.
    { apply existsb_exists. exists (Some p). split; [exact Ht | now apply same_eq]. }
    congruence.
  - apply negb_true_iff. destruct (existsb (Picks.same (Some p)) taken) eqn:E;
      [|reflexivity].
    apply existsb_exists in E as (x & Hx & Hs). apply same_eq in Hs. subst x. tauto.
Qed.

Lemma optstr_dec (a b : option string) : {a = b} + {a <> b}.
Proof. decide equality. apply string_dec. Qed.

Lemma getRandomPFP_spec (rand : Picks.random) (taken : list (option string)) :
  Inv.inRange rand ->
  NoDup taken ->
  incl taken (map Some Picks.allPFPs) ->
  exists p,
    In p Picks.allPFPs /\
    ((~ In (Some p) taken /\
      Picks.getRandomPFP rand taken = (Some p, (taken ++ [Some p])%list)) \/
     (incl (map Some Picks.allPFPs) taken /\
      Picks.getRandomPFP rand taken = (Some p, [Some p]))).
Proof.
  intros Hr Hnd Hincl. unfold Picks.getRandomPFP. cbv zeta.
  set (av := filter (fun pfp => negb (existsb (Picks.same (Some pfp)) taken))
               Picks.allPFPs).
  destruct (List.length av =? 0)%nat eqn:E.
  - apply length_zero_nil in E.
    destruct (nth_error Picks.allPFPs (rand (List.length Picks.allPFPs))) as [p|] eqn:Hp.
    + exists p. split; [now apply nth_error_In in Hp|]. right. split; [|reflexivity].
      intros x Hx. apply in_map_iff in Hx as (q & <- & Hq).
      destruct (in_dec optstr_dec (Some q) taken) as [Hin|Hout];
        [exact Hin|].
      exfalso. assert (In q av) as Hav by (apply available_in; tauto).
      rewrite E in Hav. exact Hav.
    + exfalso. apply nth_error_None in Hp.
      specialize (Hr (List.length Picks.allPFPs) ltac:(simpl; lia)). lia.
  - assert (0 < List.length av) as Hpos by (destruct av; [discriminate | simpl; lia]).
    destruct (nth_error av (rand (List.length av))) as [p|] eqn:Hp.
    + apply nth_error_In in Hp. apply available_in in Hp as [Hin Hout].
      exists p. split; [exact Hin|]. left. split; [exact Hout | reflexivity].
    + exfalso. apply nth_error_None in Hp. specialize (Hr _ Hpos). lia.
Qed.

Lemma NoDup_snoc (A : Type) (l : list A) (x : A) :
  NoDup l -> ~ In x l -> NoDup (l ++ [x]).
Proof.
  intros Hl Hx. apply NoDup_app.
  - exact Hl.
  - constructor; [intros [] | constructor].
  - intros a Ha [<-|[]]. contradiction.
Qed.

(** X15.  [getRandomPFP] hands out one of the eight pictures and never one
    that is recorded as taken, unless all eight are, in which case the
    record is emptied first; the record stays free of duplicates. *)
Theorem getRandomPFP_fresh (rand : Picks.random) (taken : list (option string)) :
  Inv.inRange rand ->
  NoDup taken ->
  incl taken (map Some Picks.allPFPs) ->
  let '(pfp, taken') := Picks.getRandomPFP rand taken in
  exists p,
    pfp = Some p /\ In p Picks.allPFPs /\
    NoDup taken' /\ incl taken' (map Some Picks.allPFPs) /\
    ((~ In pfp taken /\ taken' = (taken ++ [pfp])%list) \/
     (incl (map Some Picks.allPFPs) taken /\ taken' = [pfp])).
Proof.
  intros Hr Hnd Hincl.
  destruct (getRandomPFP_spec Hr Hnd Hincl) as (p & Hin & [[Hout ->] | [Hall ->]]);
    exists p; (split; [reflexivity|]); (split; [exact Hin|]).
  - split; [now apply NoDup_snoc|]. split; [|left; tauto].
    apply incl_app; [exact Hincl|]. intros x [<-|[]]. now apply in_map.
  - split; [constructor; [intros [] | constructor]|]. split; [|right; tauto].
    intros x [<-|[]]. now apply in_map.
Qed.

Lemma getRandomPFP_fresh_witness :
  Picks.getRandomPFP (fun _ => 0) [Some "./assets/pfp/pfp_1.png"]
  = (Some "./assets/pfp/pfp_2.png",
     [Some "./assets/pfp/pfp_1.png"; Some "./assets/pfp/pfp_2.png"]).
Proof.
  assert (Hr : Inv.inRange (fun _ => 0)) by (intros n Hn; exact Hn).
  assert (Hnd : NoDup [Some "./assets/pfp/pfp_1.png"])
    by (constructor; [intros [] | constructor]).
  assert (Hi : incl [Some "./assets/pfp/pfp_1.png"] (map Some Picks.allPFPs))
    by (intros x [<-|[]]; simpl; auto).
  pose proof (@getRandomPFP_fresh (fun _ => 0) [Some "./assets/pfp/pfp_1.png"] Hr Hnd Hi)
    as H.
  destruct (Picks.getRandomPFP (fun _ => 0) [Some "./assets/pfp/pfp_1.png"])
    as [pfp taken'] eqn:E.
  destruct H as (p & _ & _ & _ & _ & _). exact (eq_trans (eq_sym E) eq_refl).
Defined.

Lemma allPFPs_NoDup : NoDup (map Some Picks.allPFPs).
Proof.
  unfold Picks.allPFPs. simpl.
  repeat (constructor; [simpl; intros H;
                       repeat (destruct H as [H|H]; [discriminate|]); exact H|]).
  constructor.
Qed.

Lemma drawPFPs_spec (rands : list Picks.random) :
  forall taken,
  Forall Inv.inRange rands ->
  NoDup taken ->
  incl taken (map Some Picks.allPFPs) ->
  List.length taken + List.length rands <= 8 ->
  exists pfps,
    Picks.drawPFPs rands taken = (pfps, (taken ++ pfps)%list) /\
    List.length pfps = List.length rands /\
    NoDup (taken ++ pfps) /\ incl (taken ++ pfps) (map Some Picks.allPFPs).
Proof.
  induction rands as [|rand rands IH]; intros taken Hr Hnd Hincl Hlen.
  - exists []. rewrite app_nil_r. repeat split; assumption.
  - inversion Hr as [|? ? Hr1 Hr2]; subst.
    destruct (getRandomPFP_spec Hr1 Hnd Hincl) as (p & Hin & [[Hout Hg] | [Hall _]]).
    + assert (NoDup (taken ++ [Some p])) as Hnd' by now apply NoDup_snoc.
      assert (incl (taken ++ [Some p]) (map Some Picks.allPFPs)) as Hincl'.
      { apply incl_app; [exact Hincl|]. intros x [<-|[]]. now apply in_map. }
      destruct (IH (taken ++ [Some p])%list Hr2 Hnd' Hincl') as (pfps & Hd & Hl & Hn & Hi).
      { rewrite length_app. simpl in *. lia. }
      exists (Some p :: pfps). cbn [Picks.drawPFPs]. rewrite Hg, Hd.
      rewrite <- !app_assoc in *. cbn [app] in *.
      repeat split; try assumption. simpl. now rewrite Hl.
    + exfalso. pose proof (NoDup_incl_length allPFPs_NoDup Hall) as Hle.
      simpl in Hle, Hlen. lia.
Qed.

(** X16.  Starting with no picture taken, eight calls of [getRandomPFP]
    hand out the eight pictures, each exactly once. *)
Theorem eight_pfps_all_distinct (rands : list Picks.random) :
  Forall Inv.inRange rands ->
  List.length rands = 8 ->
  let '(pfps, taken) := Picks.drawPFPs rands [] in
  taken = pfps /\ NoDup pfps /\ Permutation (map Some Picks.allPFPs) pfps.
Proof.
  intros Hr Hl.
  destruct (@drawPFPs_spec rands [] Hr (NoDup_nil _) (incl_nil_l _)) as (pfps & -> & Hlp & Hn & Hi).
  { simpl. lia. }
  cbn [app] in *. split; [reflexivity|]. split; [exact Hn|].
  apply NoDup_Permutation_bis.
  - exact allPFPs_NoDup.
  - rewrite Hlp, Hl. simpl. lia.
  - apply NoDup_length_incl; [exact Hn | | exact Hi].
    rewrite Hlp, Hl. simpl. lia.
Qed.

Lemma eight_pfps_all_distinct_witness :
  NoDup (fst (Picks.drawPFPs (repeat (fun _ => 0) 8) [])).
Proof.
  assert (Hr : Forall Inv.inRange (repeat (fun _ : nat => 0) 8)).
  { apply Forall_forall. intros r Hin. apply repeat_spec in Hin. subst r.
    intros n Hn. exact Hn. }
  pose proof (@eight_pfps_all_distinct (repeat (fun _ => 0) 8) Hr eq_refl) as H.
  destruct (Picks.drawPFPs (repeat (fun _ => 0) 8) []) as [pfps taken].
  exact (proj1 (proj2 H)).
Defined.

(** * What the handlers of the page keep true *)

Lemma pageOk_endGame (g : Game.state) :
  Game.gameStarting g = false ->
  Game.playerList g = Game.players g ->
  Game.startDisabled g = false ->
  Game.cells g = [] ->
  (forall t, In t (Game.timeouts g) -> snd t = Game.GAME_DURATION) ->
  (Game.timeouts g <> [] -> Game.isHost g = true) ->
  (forall m, In m (Game.modals g) -> m = "null wins with 0 taps!") ->
  Inv.pageOk (Game.endGame g).
Proof.
  destruct g as [ps host starting started t cs pl sd ms ts nh].
  cbn [Game.gameStarting Game.playerList Game.players Game.startDisabled Game.cells
       Game.timeouts Game.isHost Game.modals].
  intros -> -> -> -> Hd Hh Hm.
  assert (forall k (l : list (nat * Z)),
            filter (fun x => negb (Nat.eqb (fst x) k)) l <> [] -> l <> []) as Hne.
  { intros k l H E. subst l. now apply H. }
  unfold Inv.pageOk, Game.endGame.
  destruct t as [k|]; cbn; repeat split; try discriminate.
  - intros x Hx. apply filter_In in Hx as [Hx _]. now apply Hd.
  - intros H. apply Hh. now apply Hne in H.
  - intros m Hin. apply in_app_or in Hin as [Hin|[<-|[]]]; [now apply Hm | reflexivity].
  - exact Hd.
  - exact Hh.
  - intros m Hin. apply in_app_or in Hin as [Hin|[<-|[]]]; [now apply Hm | reflexivity].
Qed.

Lemma pageOk_startGame (g : Game.state) :
  Inv.pageOk g -> Inv.pageOk (Game.startGame g).
Proof.
  destruct g as [ps host starting started t cs pl sd ms ts nh].
  unfold Inv.pageOk, Game.startGame, Game.startGameTimer.
  cbn [Game.gameStarting Game.playerList Game.players Game.startDisabled Game.cells
       Game.timeouts Game.isHost Game.modals Game.gameEndTimeout Game.gameStarted
       Game.setGameStarted].
  intros (-> & -> & -> & -> & Hd & Ht & Hh & Hm).
  destruct host; cbn; repeat split; try assumption.
  - intros x Hx. apply in_app_or in Hx as [Hx|[<-|[]]]; [now apply Hd | reflexivity].
  - intros h [= <-]. rewrite map_app. apply in_or_app. right. now left.
Qed.

Lemma pageOk_roster (g : Game.state) (ps : list Game.player) :
  Inv.pageOk g ->
  Inv.pageOk (Game.refreshStartButton (Game.updatePlayerList (Game.setPlayers ps g))).
Proof.
  destruct g as [ps0 host starting started t cs pl sd ms ts nh].
  unfold Inv.pageOk, Game.refreshStartButton, Game.canStartGame.
  intros (H1 & H2 & H3 & H4 & H5 & H6 & H7 & H8). cbn in *.
  destruct host; cbn; repeat split; assumption.
Qed.

Lemma pageOk_players (g : Game.state) (ps : list Game.player) :
  Inv.pageOk g -> Inv.pageOk (Game.updatePlayerList (Game.setPlayers ps g)).
Proof.
  destruct g as [ps0 host starting started t cs pl sd ms ts nh].
  unfold Inv.pageOk. intros (H1 & H2 & H3 & H4 & H5 & H6 & H7 & H8). cbn in *.
  repeat split; assumption.
Qed.

Lemma pageOk_step (p : Page.page) (e : Handlers.event) :
  Inv.pageOk (Page.game p) -> Inv.pageOk (Page.game (Handlers.step p e)).
Proof.
  intros Hok. pose proof Hok as (H1 & H2 & H3 & H4 & H5 & H6 & H7 & H8).
  destruct e as [m|nm sk|nm|q old new sk|fuel rnd sk| |h|e]; cbn [Handlers.step].
  - destruct m as [pid|d| |]; cbn [Page.receive Page.game].
    + unfold Game.onTapEvent, Game.showTapEffect. now rewrite H4.
    + unfold Game.onGameStateUpdate. destruct (Net.gameEnded d); [|exact Hok].
      now apply pageOk_endGame.
    + now apply pageOk_startGame.
    + unfold Game.onRoomClosed, Game.resetGameState.
      destruct (Page.game p) as [ps0 host starting started t cs pl sd ms ts nh].
      unfold Inv.pageOk in *. cbn in *. repeat split; assumption.
  - cbn [Page.game]. unfold Game.onPlayerJoined, Game.addPlayerToList.
    now apply pageOk_roster.
  - cbn [Page.game]. unfold Game.onPlayerLeft, Game.removePlayerFromList.
    now apply pageOk_roster.
  - cbn [Page.game]. unfold Handlers.onPlayerInfoUpdate.
    destruct (find _ _); [|exact Hok].
    destruct q; [now apply pageOk_players | | exact Hok].
    destruct (Page.game p) as [ps0 host starting started t cs pl sd ms ts nh].
    unfold Inv.pageOk in *. cbn in *. repeat split; assumption.
  - unfold Handlers.createLobbyClick.
    destruct (RoomCode.generateRoomCode fuel rnd 0); [|exact Hok].
    cbn [Page.game]. unfold Game.addPlayer, Game.updateStartButtonState, Game.canStartGame.
    destruct (Page.game p) as [ps0 host starting started t cs pl sd ms ts nh].
    unfold Inv.pageOk in *. cbn in *. repeat split; assumption.
  - unfold Handlers.touchStart. now destruct (negb _).
  - unfold Page.timeoutFires. destruct (existsb _ _); [|exact Hok].
    cbn [Page.game]. apply pageOk_endGame; try assumption.
    + intros t Ht. apply filter_In in Ht as [Ht _]. now apply H5.
    + intros Hne. apply H7. intros E. apply Hne. unfold Game.clearTimeout.
      cbn [Game.timeouts Game.setTimeouts]. now rewrite E.
  - exact Hok.
Qed.

Lemma pageOk_run (es : list Handlers.event) (p : Page.page) :
  Inv.pageOk (Page.game p) -> Inv.pageOk (Page.game (Handlers.run es p)).
Proof.
  revert p; induction es as [|e es IH]; intros p Hok; [exact Hok|].
  apply IH. now apply pageOk_step.
Qed.

Lemma pageOk_loaded : Inv.pageOk (Page.game Handlers.loaded).
Proof.
  unfold Inv.pageOk. cbn. repeat split; try discriminate; try (intros ? []).
  intros H. now contradiction H.
Qed.

Lemma deliver_tapEvent_no_cell (i : nat) (playerId : string) (p : Page.page) :
  Game.cells (Page.game p) = [] -> Page.deliver i (Page.TapEvent playerId) p = p.
Proof.
  intros Hc. unfold Page.deliver.
  destruct (nth_error (Net.sockets (Page.net p)) i) as [k|]; [|reflexivity].
  destruct (Net.connected k); [|reflexivity].
  induction (count_occ string_dec (Net.listeners k)
               (Page.eventName (Page.TapEvent playerId))) as [|n IH]; [reflexivity|].
  rewrite Nat.iter_succ, IH.
  unfold Page.receive, Game.onTapEvent, Game.showTapEffect. rewrite Hc. now destruct p.
Qed.

(** C5 does not hold of the code.  index.html has no [.player-cell]
    element and nothing calls [updatePlayerGrid], so after any run of
    events the page has no cell: a [tapEvent] that arrives on a socket, for
    whatever player, runs [showTapEffect], which finds no element
    [player-<playerId>] and returns.  On the page of a connected host in a
    running round, with Ann in the roster and one [tapEvent] listener on
    the socket, two tap events for Ann leave the page as it was: there is
    no counter to raise and no flash to switch on. *)
Theorem tapEvent_finds_no_cell :
  (forall es i playerId,
     let p := Handlers.run es Handlers.loaded in
     Game.getElementById (Game.cellIdOf (Some playerId)) (Game.cells (Page.game p)) = None /\
     Page.deliver i (Page.TapEvent playerId) p = p) /\
  (let p := Inv.hostStarted in
   option_map (Inv.handlers "tapEvent") (Net.current (Page.net p)) = Some 1 /\
   Net.isConnected (Page.net p) = true /\
   map Game.name (Game.players (Page.game p)) = ["Ann"] /\
   Game.gameStarted (Page.game p) = true /\
   Game.cells (Page.game p) = [] /\
   Page.deliverAll 0 [Page.TapEvent "Ann"; Page.TapEvent "Ann"] p = p).
Proof.
  split.
  - intros es i playerId p.
    destruct (@pageOk_run es _ pageOk_loaded) as (_ & _ & _ & Hc & _).
    fold p in Hc. split; [now rewrite Hc | now apply deliver_tapEvent_no_cell].
  - vm_compute. repeat split.
Qed.

(** X17.  No handler of the two scripts builds a player cell (nothing
    calls [updatePlayerGrid]): on a page loaded without cells there is none
    after any run of events, so tap events change nothing and every result
    modal reads "null wins with 0 taps!". *)
Theorem no_player_cell_is_ever_built (es : list Handlers.event) :
  let p := Handlers.run es Handlers.loaded in
  Game.cells (Page.game p) = [] /\
  (forall playerId, Page.receive p (Page.TapEvent playerId) = p) /\
  (forall m, In m (Game.modals (Page.game p)) -> m = "null wins with 0 taps!").
Proof.
  intros p.
  destruct (@pageOk_run es _ pageOk_loaded) as (_ & _ & _ & Hc & _ & _ & _ & Hm).
  fold p in Hc, Hm. split; [exact Hc|]. split; [|exact Hm].
  intros pid. unfold Page.receive, Game.onTapEvent, Game.showTapEffect.
  rewrite Hc. now destruct p.
Qed.

(** X18.  The round-end timer lives on the host only: after any run of
    events a page that never became host has no round-end timeout pending
    and no remembered handle, so no timeout of its own ends the round
    there; and on every page the handle in [gameEndTimeout] is one of the
    pending round-end timeouts. *)
Theorem round_timers_only_on_host (es : list Handlers.event) :
  let p := Handlers.run es Handlers.loaded in
  let g := Page.game p in
  (Game.isHost g = false ->
   Game.timeouts g = [] /\ Game.gameEndTimeout g = None /\
   forall h, Page.timeoutFires h p = p) /\
  (forall h, Game.gameEndTimeout g = Some h -> In h (map fst (Game.timeouts g))).
Proof.
  intros p g.
  destruct (@pageOk_run es _ pageOk_loaded) as (_ & _ & _ & _ & _ & Ht & Hh & _).
  fold p in Ht, Hh. fold g in Ht, Hh. split; [|exact Ht].
  intros Hhost.
  assert (Game.timeouts g = []) as Hnil.
  { destruct (Game.timeouts g) eqn:E; [reflexivity|].
    assert (Game.isHost g = true) by (apply Hh; discriminate). congruence. }
  split; [exact Hnil|]. split.
  - destruct (Game.gameEndTimeout g) as [h|] eqn:E; [|reflexivity].
    specialize (Ht h eq_refl). rewrite Hnil in Ht. destruct Ht.
  - intros h. unfold Page.timeoutFires. fold g. now rewrite Hnil.
Qed.

(** X19.  After any run of events the flag [gameStarting] is still false
    (nothing ever sets it), the start button is not disabled, and the
    rendered player list shows exactly the roster. *)
Theorem lobby_flags_invariant (es : list Handlers.event) :
  let g := Page.game (Handlers.run es Handlers.loaded) in
  Game.gameStarting g = false /\
  Game.startDisabled g = false /\
  Game.playerList g = Game.players g.
Proof.
  intros g.
  destruct (@pageOk_run es _ pageOk_loaded) as (H1 & H2 & H3 & _).
  repeat split; assumption.
Qed.

(** * Further properties of the networking script *)

Lemma length_updateAt (i : nat) (f : Net.Socket -> Net.Socket) (l : list Net.Socket) :
  List.length (Net.updateAt i f l) = List.length l.
Proof.
  revert i; induction l as [|x l IH]; intros [|i]; simpl; try reflexivity.
  now rewrite IH.
Qed.

Lemma In_updateAt (i : nat) (f : Net.Socket -> Net.Socket) (l : list Net.Socket)
    (k : Net.Socket) :
  In k (Net.updateAt i f l) -> In k l \/ exists k0, In k0 l /\ k = f k0.
Proof.
  revert i; induction l as [|x l IH]; intros [|i]; simpl; try tauto.
  - intros [<-|H]; [right; exists x; tauto | tauto].
  - intros [<-|H]; [tauto|].
    destruct (IH _ H) as [H'|(k0 & H0 & ->)]; [tauto|].
    right. exists k0. tauto.
Qed.

Lemma updateAt_app_last (l : list Net.Socket) (x : Net.Socket)
    (f : Net.Socket -> Net.Socket) :
  Net.updateAt (List.length l) f (l ++ [x]) = (l ++ [f x])%list.
Proof. induction l as [|y l IH]; simpl; [reflexivity | now rewrite IH]. Qed.

Lemma nth_error_app_last (l : list Net.Socket) (x : Net.Socket) :
  nth_error (l ++ [x]) (List.length l) = Some x.
Proof. induction l as [|y l IH]; simpl; [reflexivity | exact IH]. Qed.

Section SocketsOk.

Lemma socketsOk_updateAt (i : nat) (f : Net.Socket -> Net.Socket) (s : Net.state) :
  Inv.keepsId f -> Inv.socketsOk s ->
  Inv.socketsOk (Net.setSockets (Net.updateAt i f (Net.sockets s)) s).
Proof.
  intros Hf [Hid Hptr]. split; cbn [Net.sockets Net.socket Net.setSockets].
  - intros k Hk. apply In_updateAt in Hk as [Hk|(k0 & Hk0 & ->)].
    + now apply Hid.
    + apply Hf. now apply Hid.
  - intros j Hj. rewrite length_updateAt. now apply Hptr.
Qed.

Lemma socketsOk_onCurrent (f : Net.Socket -> Net.Socket) (s : Net.state) :
  Inv.keepsId f -> Inv.socketsOk s -> Inv.socketsOk (Net.onCurrent f s).
Proof.
  intros Hf Hok. unfold Net.onCurrent.
  destruct (Net.socket s); [now apply socketsOk_updateAt | exact Hok].
Qed.

Lemma socketsOk_frame (s s' : Net.state) :
  Net.sockets s' = Net.sockets s -> Net.socket s' = Net.socket s ->
  Inv.socketsOk s -> Inv.socketsOk s'.
Proof. unfold Inv.socketsOk. now intros -> ->. Qed.

End SocketsOk.

Ltac keeps_id :=
  let k := fresh "k" in let H := fresh "H" in
  intros k H; cbn [Net.connected Net.id]; solve [exact H | discriminate].

Ltac sockets_ok :=
  repeat first
    [ assumption
    | apply socketsOk_onCurrent; [keeps_id|]
    | match goal with
      | |- Inv.socketsOk (Net.log _ ?s) =>
          apply (@socketsOk_frame s); [reflexivity | reflexivity |]
      | |- Inv.socketsOk (Net.showError _ ?s) =>
          apply (@socketsOk_frame s); [reflexivity | reflexivity |]
      | |- Inv.socketsOk (Net.setLastPongReceived _ ?s) =>
          apply (@socketsOk_frame s); [reflexivity | reflexivity |]
      | |- Inv.socketsOk (Net.setPingTimer ?s) =>
          apply (@socketsOk_frame s); [reflexivity | reflexivity |]
      | |- Inv.socketsOk (Net.scheduleReconnect ?s) =>
          apply (@socketsOk_frame s); [reflexivity | reflexivity |]
      | |- Inv.socketsOk (Net.setReconnects _ ?s) =>
          apply (@socketsOk_frame s); [reflexivity | reflexivity |]
      | |- Inv.socketsOk (Net.clearInterval ?h ?s) =>
          apply (@socketsOk_frame s); [now destruct h | now destruct h |]
      end ].

Lemma socketsOk_setup (s : Net.state) :
  Inv.socketsOk s -> Inv.socketsOk (Net.setupSocketEventHandlers s).
Proof.
  intros Hok. unfold Net.setupSocketEventHandlers.
  destruct (Net.socket s); [|exact Hok]. unfold Net.on. sockets_ok.
Qed.

Lemma socketsOk_connectToServer (s : Net.state) :
  Inv.socketsOk s -> Inv.socketsOk (Net.connectToServer s).
Proof.
  intros Hok. unfold Net.connectToServer.
  destruct (Net.isConnected s); [exact Hok|].
  destruct Hok as [Hid Hptr]. split; cbn [Net.sockets Net.socket Net.setSockets Net.setSocket].
  - intros k Hk. apply in_app_or in Hk as [Hk|[<-|[]]]; [now apply Hid | discriminate].
  - intros i [= <-]. rewrite length_app. simpl. lia.
Qed.

Lemma socketsOk_performCreateRoom (code : string) (skin : option Z) (s : Net.state) :
  Inv.socketsOk s -> Inv.socketsOk (Net.performCreateRoom code skin s).
Proof.
  intros Hok. unfold Net.performCreateRoom, Net.on, Net.off, Net.emit. cbv zeta.
  sockets_ok.
Qed.

Lemma socketsOk_performJoin (code name : string) (skin : Z) (s : Net.state) :
  Inv.socketsOk s -> Inv.socketsOk (Net.performJoin code name skin s).
Proof.
  intros Hok. unfold Net.performJoin, Net.on, Net.emit. cbv zeta. sockets_ok.
Qed.

Lemma socketsOk_runDeferred (ds : list Net.deferred) (s : Net.state) :
  Inv.socketsOk s ->
  Inv.socketsOk (fold_left (fun acc d => Net.runDeferred d acc) ds s).
Proof.
  revert s; induction ds as [|d ds IH]; intros s Hok; [exact Hok|].
  cbn [fold_left]. apply IH.
  destruct d; [now apply socketsOk_performCreateRoom | now apply socketsOk_performJoin].
Qed.

Lemma socketsOk_onConnect (now : Z) (s : Net.state) :
  Inv.socketsOk s -> Inv.socketsOk (Net.onConnect now s).
Proof.
  intros Hok. unfold Net.onConnect. cbv zeta.
  apply socketsOk_setup.
  cbn [Net.pingInterval Net.setLastPongReceived Net.log].
  destruct (Net.pingInterval s); sockets_ok.
Qed.

Lemma socketsOk_step (s : Net.state) (e : Net.event) :
  Inv.socketsOk s -> Inv.socketsOk (Net.step s e).
Proof.
  intros Hok. destruct e; cbn [Net.step].
  - now apply socketsOk_connectToServer.
  - unfold Net.networkManager_createRoom, Net.createRoom.
    destruct (negb (Net.isConnected s)).
    + unfold Net.onceConnected. apply socketsOk_onCurrent; [keeps_id|].
      now apply socketsOk_connectToServer.
    + now apply socketsOk_performCreateRoom.
  - unfold Net.joinRoom. destruct (negb (Net.isConnected s)).
    + unfold Net.onceConnected. apply socketsOk_onCurrent; [keeps_id|].
      now apply socketsOk_connectToServer.
    + now apply socketsOk_performJoin.
  - unfold Net.updatePlayerInfo. cbv zeta.
    destruct (Net.isConnected _); unfold Net.emit; sockets_ok.
  - unfold Net.sendTap. destruct (Net.isConnected s); unfold Net.emit; sockets_ok.
  - unfold Net.updateGameState. destruct (Net.isConnected s); unfold Net.emit; sockets_ok.
  - unfold Net.socketConnects.
    destruct (nth_error (Net.sockets s) i) as [k|]; [|exact Hok].
    destruct (Net.connected k); [exact Hok|]. cbv zeta.
    apply socketsOk_runDeferred, socketsOk_onConnect.
    apply socketsOk_updateAt; [keeps_id | exact Hok].
  - unfold Net.socketDrops. apply socketsOk_updateAt; [keeps_id | exact Hok].
  - unfold Net.pongArrives.
    destruct (nth_error (Net.sockets s) i) as [k|]; [|exact Hok].
    destruct (Net.connected k && _); sockets_ok.
  - unfold Net.intervalFires. destruct (existsb _ _); [|exact Hok].
    unfold Net.heartbeat. destruct (Net.isConnected s); [|exact Hok]. cbv zeta.
    destruct (_ >? _)%Z; unfold Net.disconnect, Net.emit; sockets_ok.
  - unfold Net.reconnectFires. destruct (existsb _ _); [|exact Hok].
    apply socketsOk_connectToServer. sockets_ok.
Qed.

Lemma socketsOk_run (es : list Net.event) (s : Net.state) :
  Inv.socketsOk s -> Inv.socketsOk (Net.run es s).
Proof.
  revert s; induction es as [|e es IH]; intros s Hok; [exact Hok|].
  apply IH. now apply socketsOk_step.
Qed.

Lemma socketsOk_init : Inv.socketsOk Net.init.
Proof. split; [intros k [] | discriminate]. Qed.

Lemma current_frame (s s' : Net.state) :
  Net.sockets s' = Net.sockets s -> Net.socket s' = Net.socket s ->
  Net.current s' = Net.current s.
Proof. unfold Net.current. now intros -> ->. Qed.

Lemma performCreateRoom_current (code : string) (skin : option Z) (s : Net.state)
    (k : Net.Socket) :
  Net.current s = Some k ->
  Net.current (Net.performCreateRoom code skin s) =
  Some (Net.mkSocket (Net.connected k) (Net.id k)
          (Net.emitted k ++ [Net.CreateRoom code (Net.id k) skin])
          (Net.onceConnect k)
          (filter (fun e => negb (String.eqb e "playerLeft"))
             (filter (fun e => negb (String.eqb e "playerJoined")) (Net.listeners k))
           ++ ["playerJoined"] ++ ["playerLeft"])).
Proof.
  intros Hk. unfold Net.performCreateRoom, Net.on, Net.off, Net.emit. cbv zeta.
  rewrite !current_onCurrent.
  rewrite (@current_frame s (Net.log ("Creating room with code: " ++ code) s)
             eq_refl eq_refl).
  rewrite Hk. cbn [option_map Net.connected Net.id Net.emitted Net.onceConnect
                   Net.listeners].
  now rewrite <- app_assoc.
Qed.

(** X20.  In every state the script can reach, a socket that reports
    connected has an id; so a [createRoom] on a connected session sends, at
    once and on that socket, a create-room request carrying the room
    code and the id of the connection as [hostId]. *)
Theorem createRoom_connected_sends_hostId (es : list Net.event) (code : string) (skin : Z) :
  let s := Net.run es Net.init in
  Net.isConnected s = true ->
  exists sid k,
    Net.current s = Some k /\ Net.id k = Some sid /\
    option_map Net.emitted (Net.current (Net.networkManager_createRoom code skin s))
    = Some (Net.emitted k ++ [Net.CreateRoom code (Some sid) None])%list.
Proof.
  intros s Hc.
  assert (Inv.socketsOk s) as [Hid _] by (apply socketsOk_run, socketsOk_init).
  unfold Net.isConnected in Hc.
  destruct (Net.current s) as [k|] eqn:Hk; [|discriminate].
  assert (In k (Net.sockets s)) as Hin.
  { unfold Net.current in Hk. destruct (Net.socket s); [|discriminate].
    now apply nth_error_In in Hk. }
  destruct (Net.id k) as [sid|] eqn:Hsid; [|now specialize (Hid k Hin Hc)].
  exists sid, k. split; [reflexivity|]. split; [exact Hsid|].
  unfold Net.networkManager_createRoom, Net.createRoom, Net.isConnected.
  rewrite Hk, Hc. cbn [negb].
  rewrite (performCreateRoom_current code None s Hk). cbn [option_map Net.emitted].
  now rewrite Hsid.
Qed.

Lemma createRoom_connected_sends_hostId_witness :
  let s := Net.run [Net.CallConnectToServer; Net.SocketConnects 0 "h0st" 0] Net.init in
  Net.isConnected s = true /\
  exists sid k,
    Net.current s = Some k /\ Net.id k = Some sid /\
    option_map Net.emitted (Net.current (Net.networkManager_createRoom "WXYZ" 2 s))
    = Some (Net.emitted k ++ [Net.CreateRoom "WXYZ" (Some sid) None])%list.
Proof.
  split; [reflexivity|].
  exact (@createRoom_connected_sends_hostId
           [Net.CallConnectToServer; Net.SocketConnects 0 "h0st" 0] "WXYZ" 2 eq_refl).
Defined.

Lemma count_filter_other (ev x : string) (l : list string) :
  x <> ev ->
  count_occ string_dec (filter (fun e => negb (String.eqb e ev)) l) x
  = count_occ string_dec l x.
Proof.
  intros Hx. induction l as [|a l IH]; [reflexivity|].
  cbn [filter count_occ].
  destruct (String.eqb_spec a ev) as [E|E]; cbn [negb count_occ];
    destruct (string_dec a x); try congruence; now rewrite IH.
Qed.

Lemma count_filter_self (ev : string) (l : list string) :
  count_occ string_dec (filter (fun e => negb (String.eqb e ev)) l) ev = 0.
Proof.
  induction l as [|a l IH]; [reflexivity|].
  cbn [filter]. destruct (String.eqb_spec a ev) as [E|E]; cbn [negb count_occ];
    [exact IH|]. destruct (string_dec a ev); [congruence | exact IH].
Qed.

(** X21.  [performCreateRoom] removes the [playerJoined] and [playerLeft]
    handlers before attaching them again: however often it ran before, the
    socket ends with exactly one handler for each, the handlers of every
    other event are untouched, and exactly one create-room request is
    added to what was sent. *)
Theorem performCreateRoom_one_handler_each (code : string) (skin : option Z)
    (s : Net.state) (k : Net.Socket) :
  Net.current s = Some k ->
  exists k',
    Net.current (Net.performCreateRoom code skin s) = Some k' /\
    Inv.handlers "playerJoined" k' = 1 /\
    Inv.handlers "playerLeft" k' = 1 /\
    (forall ev, ev <> "playerJoined" -> ev <> "playerLeft" ->
                Inv.handlers ev k' = Inv.handlers ev k) /\
    Net.emitted k' = (Net.emitted k ++ [Net.CreateRoom code (Net.id k) skin])%list.
Proof.
  intros Hk. eexists. split; [apply (performCreateRoom_current code skin s Hk)|].
  unfold Inv.handlers. cbn [Net.listeners Net.emitted].
  rewrite !count_occ_app.
  split; [|split; [|split; [|reflexivity]]].
  - rewrite (@count_filter_other "playerLeft" "playerJoined") by discriminate.
    rewrite count_filter_self. reflexivity.
  - rewrite count_filter_self. reflexivity.
  - intros ev H1 H2. rewrite !count_occ_app.
    rewrite (@count_filter_other "playerLeft" ev) by assumption.
    rewrite (@count_filter_other "playerJoined" ev) by assumption.
    cbn [count_occ].
    destruct (string_dec "playerJoined" ev); [congruence|].
    destruct (string_dec "playerLeft" ev); [congruence|]. lia.
Qed.

Lemma performCreateRoom_one_handler_each_witness :
  let s := Net.connectToServer Net.init in
  exists k',
    Net.current (Net.performCreateRoom "WXYZ" None (Net.performCreateRoom "ABCD" None s))
      = Some k' /\
    Inv.handlers "playerJoined" k' = 1 /\ Inv.handlers "playerLeft" k' = 1.
Proof.
  cbv zeta.
  destruct (@performCreateRoom_one_handler_each "ABCD" None
              (Net.connectToServer Net.init) Net.freshSocket eq_refl) as (k1 & Hc1 & _).
  destruct (@performCreateRoom_one_handler_each "WXYZ" None
              (Net.performCreateRoom "ABCD" None (Net.connectToServer Net.init)) k1 Hc1)
    as (k' & Hc & H1 & H2 & _).
  exists k'. split; [exact Hc | split; [exact H1 | exact H2]].
Defined.

Lemma onConnect_current (now : Z) (s : Net.state) (k : Net.Socket) :
  Net.current s = Some k ->
  Net.current (Net.onConnect now s) =
  Some (Net.mkSocket (Net.connected k) (Net.id k) (Net.emitted k) (Net.onceConnect k)
          (Net.listeners k ++ Inv.relayEvents)).
Proof.
  intros Hk. unfold Net.onConnect. cbv zeta.
  cbn [Net.pingInterval Net.setLastPongReceived Net.log].
  set (s2 := Net.setPingTimer _).
  assert (Net.sockets s2 = Net.sockets s /\ Net.socket s2 = Net.socket s) as [Hs Hp]
    by (subst s2; destruct (Net.pingInterval s); split; reflexivity).
  assert (Net.current s2 = Some k) as Hk2
    by (rewrite (@current_frame s s2 Hs Hp); exact Hk).
  unfold Net.setupSocketEventHandlers.
  destruct (Net.socket s2) eqn:E.
  - unfold Net.on. rewrite !current_onCurrent. rewrite Hk2.
    cbn [option_map Net.connected Net.id Net.emitted Net.onceConnect Net.listeners].
    unfold Inv.relayEvents. now rewrite <- !app_assoc.
  - unfold Net.current in Hk2. rewrite E in Hk2. discriminate.
Qed.

Lemma handlers_app (ev : string) (k : Net.Socket) (l : list string) :
  count_occ string_dec (Net.listeners k ++ l) ev
  = Inv.handlers ev k + count_occ string_dec l ev.
Proof. unfold Inv.handlers. apply count_occ_app. Qed.

(** X22.  The ['connect'] listener attaches the seven relay handlers
    without removing earlier ones: after it has run [n] times on a socket
    object, each relay event has [n] more handlers than before, while the
    handlers of [playerJoined] and [playerLeft] are as they were. *)
Theorem connect_handlers_accumulate (now : Z) (n : nat) (s : Net.state) (k : Net.Socket) :
  Net.current s = Some k ->
  exists k',
    Net.current (Nat.iter n (Net.onConnect now) s) = Some k' /\
    (forall ev, In ev Inv.relayEvents -> Inv.handlers ev k' = Inv.handlers ev k + n) /\
    (forall ev, ~ In ev Inv.relayEvents -> Inv.handlers ev k' = Inv.handlers ev k) /\
    Net.emitted k' = Net.emitted k.
Proof.
  intros Hk. induction n as [|n (k1 & Hk1 & Hin & Hout & Hem)].
  - exists k. split; [exact Hk|]. repeat split; intros; lia.
  - rewrite Nat.iter_succ. eexists. split; [apply (onConnect_current now _ Hk1)|].
    unfold Inv.handlers at 1 3. cbn [Net.listeners Net.emitted].
    split; [|split; [|exact Hem]].
    + intros ev Hev. rewrite handlers_app, (Hin ev Hev).
      assert (count_occ string_dec Inv.relayEvents ev = 1) as ->; [|lia].
      unfold Inv.relayEvents in *. simpl in Hev.
      repeat (destruct Hev as [<-|Hev]; [reflexivity|]). destruct Hev.
    + intros ev Hev. rewrite handlers_app, (Hout ev Hev).
      assert (count_occ string_dec Inv.relayEvents ev = 0) as ->; [|lia].
      now apply count_occ_not_In.
Qed.

Lemma connect_handlers_accumulate_witness :
  exists k',
    Net.current (Nat.iter 2 (Net.onConnect 5) (Net.connectToServer Net.init)) = Some k' /\
    Inv.handlers "tapEvent" k' = Inv.handlers "tapEvent" Net.freshSocket + 2.
Proof.
  destruct (@connect_handlers_accumulate 5 2 (Net.connectToServer Net.init)
              Net.freshSocket eq_refl) as (k' & Hc & Hin & _).
  exists k'. split; [exact Hc|].
  apply Hin. unfold Inv.relayEvents. simpl. auto 10.
Defined.

Lemma emit_current (m : Net.message) (s : Net.state) (k : Net.Socket) :
  Net.current s = Some k ->
  Net.current (Net.emit m s)
  = Some (Net.mkSocket (Net.connected k) (Net.id k) (Net.emitted k ++ [m])
            (Net.onceConnect k) (Net.listeners k)).
Proof. intros Hk. unfold Net.emit. now rewrite current_onCurrent, Hk. Qed.

Lemma isConnected_emit (m : Net.message) (s : Net.state) :
  Net.isConnected (Net.emit m s) = Net.isConnected s.
Proof.
  unfold Net.isConnected, Net.emit. rewrite current_onCurrent.
  now destruct (Net.current s).
Qed.

(** X23.  A link that keeps answering is left alone: along any run of
    pongs and heartbeat ticks in which each tick comes at most 60000 ms
    after the last pong seen (the bound included), no timer is cancelled
    or added, no reconnect is scheduled and the session stays as connected
    as it was. *)
Theorem healthy_link_is_kept (es : list Net.event) :
  forall s, Inv.timely es s ->
  Props.timers (Net.run es s) = Props.timers s /\
  Net.isConnected (Net.run es s) = Net.isConnected s.
Proof.
  induction es as [|e es IH]; intros s Ht; [split; reflexivity|].
  assert (Inv.timely es (Net.step s e) /\
          Props.timers (Net.step s e) = Props.timers s /\
          Net.isConnected (Net.step s e) = Net.isConnected s) as (Ht' & Htm & Hc).
  { destruct e; cbn [Inv.timely] in Ht; try contradiction.
    - split; [exact Ht|]. cbn [Net.step]. unfold Net.pongArrives.
      destruct (nth_error (Net.sockets s) i) as [k|]; [|split; reflexivity].
      destruct (Net.connected k && _); split; reflexivity.
    - destruct Ht as [Hle Ht]. split; [exact Ht|]. cbn [Net.step].
      unfold Net.intervalFires. destruct (existsb _ _); [|split; reflexivity].
      unfold Net.heartbeat. destruct (Net.isConnected s) eqn:Hc; [|split; [reflexivity|exact Hc]].
      cbv zeta.
      assert (Net.lastPongReceived (Net.emit Net.Ping s) = Net.lastPongReceived s) as Hl
        by apply lastPong_onCurrent.
      rewrite !Hl.
      destruct (Z.gtb_spec (now - Net.lastPongReceived s) 60000) as [Hgt|_]; [lia|].
      split; [apply timers_onCurrent | now rewrite isConnected_emit]. }
  cbn [Net.run fold_left]. fold (Net.run es (Net.step s e)).
  destruct (IH _ Ht') as [H1 H2]. split; congruence.
Qed.

Lemma healthy_link_is_kept_witness :
  let s := Net.run [Net.CallConnectToServer; Net.SocketConnects 0 "k1" 0] Net.init in
  let es := [Net.IntervalFires 1 25000; Net.IntervalFires 1 50000;
             Net.PongArrives 0 50010; Net.IntervalFires 1 110010] in
  Net.intervals (Net.run es s) = [1] /\ Net.reconnects (Net.run es s) = [] /\
  Net.isConnected (Net.run es s) = true.
Proof.
  cbv zeta.
  destruct (@healthy_link_is_kept
              [Net.IntervalFires 1 25000; Net.IntervalFires 1 50000;
               Net.PongArrives 0 50010; Net.IntervalFires 1 110010]
              (Net.run [Net.CallConnectToServer; Net.SocketConnects 0 "k1" 0] Net.init))
    as [Ht Hc].
  { cbn. repeat split; discriminate. }
  destruct (timers_inv Ht) as (_ & Hi & Hr & _).
  split; [exact Hi | split; [exact Hr | exact Hc]].
Defined.

(** X24.  [sendTap] sends one [playerTap] per call, in order and without
    touching anything else, while the socket is connected; while it is not,
    any number of calls leaves the state exactly as it was (nothing is
    queued). *)
Theorem sendTap_one_message_per_call (n : nat) (s : Net.state) :
  (forall k, Net.current s = Some k -> Net.connected k = true ->
     Net.current (Nat.iter n Net.sendTap s)
     = Some (Net.mkSocket true (Net.id k) (Net.emitted k ++ repeat Net.PlayerTap n)
               (Net.onceConnect k) (Net.listeners k)) /\
     Props.timers (Nat.iter n Net.sendTap s) = Props.timers s) /\
  (Net.isConnected s = false -> Nat.iter n Net.sendTap s = s).
Proof.
  split.
  - intros k Hk Hc. induction n as [|n [IHc IHt]].
    + change (Nat.iter 0 Net.sendTap s) with s. cbn [repeat].
      rewrite app_nil_r, Hk. split; [|reflexivity].
      destruct k; cbn in *; now subst.
    + rewrite Nat.iter_succ.
      assert (Net.sendTap (Nat.iter n Net.sendTap s)
              = Net.emit Net.PlayerTap (Nat.iter n Net.sendTap s)) as ->.
      { unfold Net.sendTap at 1. unfold Net.isConnected. rewrite IHc. reflexivity. }
      rewrite (emit_current _ _ IHc).
      cbn [Net.connected Net.id Net.emitted Net.onceConnect Net.listeners].
      split.
      * rewrite <- app_assoc. now rewrite <- repeat_cons.
      * unfold Net.emit. now rewrite timers_onCurrent.
  - intros Hc. induction n as [|n IH]; [reflexivity|].
    rewrite Nat.iter_succ, IH. unfold Net.sendTap. now rewrite Hc.
Qed.

Lemma sendTap_one_message_per_call_witness :
  let s := Net.setSockets [Net.mkSocket true (Some "k1") [] [] ["connect"]]
             (Net.connectToServer Net.init) in
  option_map Net.emitted (Net.current (Nat.iter 3 Net.sendTap s))
  = Some [Net.PlayerTap; Net.PlayerTap; Net.PlayerTap].
Proof.
  cbv zeta.
  destruct (proj1 (sendTap_one_message_per_call 3
                     (Net.setSockets [Net.mkSocket true (Some "k1") [] [] ["connect"]]
                        (Net.connectToServer Net.init)))
              (Net.mkSocket true (Some "k1") [] [] ["connect"]) eq_refl eq_refl)
    as [Hc _].
  rewrite Hc. reflexivity.
Defined.

Lemma isConnected_fresh (l : list Net.Socket) (s : Net.state) :
  Net.isConnected
    (Net.setSocket (Some (List.length l)) (Net.setSockets (l ++ [Net.freshSocket]) s))
  = false.
Proof.
  unfold Net.isConnected, Net.current. cbn [Net.socket Net.sockets Net.setSocket Net.setSockets].
  now rewrite nth_error_app_last.
Qed.

(** X25.  [connectToServer] does nothing once the socket is connected, but
    while it is not, every call builds a new socket object and points
    [socket] at it: [n] calls before the connection is up leave [n] fresh
    objects behind the existing ones, the last of them current. *)
Theorem connectToServer_allocates (n : nat) (s : Net.state) :
  (Net.isConnected s = true -> Nat.iter n Net.connectToServer s = s) /\
  (Net.isConnected s = false ->
   Net.sockets (Nat.iter n Net.connectToServer s)
     = (Net.sockets s ++ repeat Net.freshSocket n)%list /\
   Net.isConnected (Nat.iter n Net.connectToServer s) = false /\
   (0 < n -> Net.socket (Nat.iter n Net.connectToServer s)
             = Some (List.length (Net.sockets s) + n - 1)) /\
   Props.timers (Nat.iter n Net.connectToServer s) = Props.timers s).
Proof.
  split.
  - intros Hc. induction n as [|n IH]; [reflexivity|].
    rewrite Nat.iter_succ, IH. unfold Net.connectToServer. now rewrite Hc.
  - intros Hc. induction n as [|n (Hs & Hcn & Hp & Ht)].
    + change (Nat.iter 0 Net.connectToServer s) with s. cbn [repeat].
      rewrite app_nil_r. repeat split; [exact Hc | lia].
    + rewrite Nat.iter_succ.
      remember (Nat.iter n Net.connectToServer s) as x eqn:Hx. clear Hx.
      unfold Net.connectToServer. rewrite Hcn.
      cbn [Net.sockets Net.socket Net.setSocket Net.setSockets].
      split; [|split; [|split]].
      * rewrite Hs, <- app_assoc. f_equal. now rewrite <- repeat_cons.
      * apply isConnected_fresh.
      * intros _. rewrite Hs, length_app, repeat_length. f_equal. lia.
      * exact Ht.
Qed.

Lemma connectToServer_allocates_witness :
  List.length (Net.sockets (Nat.iter 3 Net.connectToServer Net.init)) = 3 /\
  Net.socket (Nat.iter 3 Net.connectToServer Net.init) = Some 2.
Proof.
  destruct (proj2 (connectToServer_allocates 3 Net.init) eq_refl) as (Hs & _ & Hp & _).
  split; [now rewrite Hs | exact (Hp ltac:(lia))].
Defined.

Lemma current_at_last (l : list Net.Socket) (x : Net.Socket) (s : Net.state) :
  Net.sockets s = (l ++ [x])%list -> Net.socket s = Some (List.length l) ->
  Net.current s = Some x.
Proof. unfold Net.current. intros -> ->. apply nth_error_app_last. Qed.

Lemma socketConnects_last (l : list Net.Socket) (x : Net.Socket) (sid : string) (now : Z)
    (s : Net.state) :
  Net.sockets s = (l ++ [x])%list ->
  Net.connected x = false ->
  Net.socketConnects (List.length l) sid now s
  = fold_left (fun acc d => Net.runDeferred d acc) (Net.onceConnect x)
      (Net.onConnect now
         (Net.setSockets
            (l ++ [Net.mkSocket true (Some sid) (Net.emitted x) [] (Net.listeners x)]) s)).
Proof.
  intros Hs Hx. unfold Net.socketConnects.
  rewrite Hs, nth_error_app_last, Hx. cbv zeta. now rewrite updateAt_app_last.
Qed.

(** X26.  While the session is not connected, [createRoom] sends nothing:
    it builds a fresh socket, makes it current and leaves the request
    waiting on it, the earlier socket objects untouched.  When that socket
    connects, the request is sent on it exactly once, with the new
    connection id as [hostId], and the waiting list is empty again. *)
Theorem createRoom_waits_for_connect (s : Net.state) (code : string) (skin : Z)
    (sid : string) (now : Z) :
  Net.isConnected s = false ->
  let i := List.length (Net.sockets s) in
  let s1 := Net.networkManager_createRoom code skin s in
  Net.sockets s1
    = (Net.sockets s ++
       [Net.mkSocket false None [] [Net.DeferCreateRoom code] ["connect"]])%list /\
  Net.socket s1 = Some i /\
  Net.current (Net.socketConnects i sid now s1)
    = Some (Net.mkSocket true (Some sid) [Net.CreateRoom code (Some sid) None] []
              ("connect" :: Inv.relayEvents ++ ["playerJoined"; "playerLeft"])).
Proof.
  intros Hc i s1.
  assert (Net.sockets s1
          = (Net.sockets s ++
             [Net.mkSocket false None [] [Net.DeferCreateRoom code] ["connect"]])%list /\
          Net.socket s1 = Some i) as [Hs Hp].
  { subst s1 i. unfold Net.networkManager_createRoom, Net.createRoom. rewrite Hc.
    cbn [negb]. unfold Net.connectToServer. rewrite Hc.
    unfold Net.onceConnected, Net.onCurrent.
    cbn [Net.socket Net.sockets Net.setSocket Net.setSockets].
    now rewrite updateAt_app_last. }
  split; [exact Hs|]. split; [exact Hp|].
  subst i. rewrite (socketConnects_last _ _ sid now s1 Hs eq_refl).
  cbn [Net.onceConnect Net.emitted Net.listeners fold_left Net.runDeferred].
  set (s2 := Net.setSockets _ s1).
  assert (Net.current s2 = Some (Net.mkSocket true (Some sid) [] [] ["connect"])) as Hk2.
  { apply (@current_at_last (Net.sockets s)); [reflexivity | exact Hp]. }
  rewrite (performCreateRoom_current code None _ (onConnect_current now _ Hk2)).
  reflexivity.
Qed.

Lemma createRoom_waits_for_connect_witness :
  Net.current
    (Net.socketConnects 1 "k2" 9
       (Net.networkManager_createRoom "WXYZ" 2 Props.droppedLink))
  = Some (Net.mkSocket true (Some "k2") [Net.CreateRoom "WXYZ" (Some "k2") None] []
            ("connect" :: Inv.relayEvents ++ ["playerJoined"; "playerLeft"])).
Proof.
  exact (proj2 (proj2 (@createRoom_waits_for_connect Props.droppedLink "WXYZ" 2 "k2" 9
                         eq_refl))).
Defined.

Lemma timers_onConnect (now : Z) (s : Net.state) :
  Net.intervals s = [] ->
  Props.timers (Net.onConnect now s)
  = (Some (Net.nextHandle s), [Net.nextHandle s], Net.reconnects s, S (Net.nextHandle s)).
Proof.
  intros Hi. unfold Net.onConnect. cbv zeta. rewrite timers_setup.
  cbn [Net.pingInterval Net.setLastPongReceived Net.log].
  destruct (Net.pingInterval s);
    unfold Props.timers, Net.setPingTimer, Net.clearInterval;
    cbn [Net.pingInterval Net.intervals Net.reconnects Net.nextHandle Net.setPingInterval
         Net.setIntervals Net.setNextHandle Net.setLastPongReceived Net.log];
    rewrite Hi; reflexivity.
Qed.

Lemma filter_drop_last (r : nat) (l : list nat) :
  ~ In r l -> filter (fun m => negb (Nat.eqb m r)) (l ++ [r]) = l.
Proof.
  intros Hr. rewrite filter_app. cbn [filter]. rewrite Nat.eqb_refl. cbn [negb].
  rewrite app_nil_r. induction l as [|a l IH]; [reflexivity|].
  cbn [filter]. destruct (Nat.eqb_spec a r) as [->|_].
  - exfalso. apply Hr. now left.
  - cbn [negb]. rewrite IH; [reflexivity|]. intros H. apply Hr. now right.
Qed.

Lemma length_sockets_onCurrent (f : Net.Socket -> Net.Socket) (x : Net.state) :
  List.length (Net.sockets (Net.onCurrent f x)) = List.length (Net.sockets x).
Proof.
  unfold Net.onCurrent. destruct (Net.socket x); [|reflexivity].
  cbn [Net.sockets Net.setSockets]. apply length_updateAt.
Qed.

(** The state after the recovery branch of a heartbeat tick. *)
Lemma intervalFires_recovers (s : Net.state) (h : nat) (now : Z) :
  In h (Net.intervals s) ->
  Net.isConnected s = true ->
  (now - Net.lastPongReceived s > 60000)%Z ->
  Net.step s (Net.IntervalFires h now)
  = Net.scheduleReconnect
      (Net.disconnect
         (Net.clearInterval (Net.pingInterval (Net.emit Net.Ping s))
            (Net.log "Connection lost, attempting to reconnect..."
               (Net.emit Net.Ping s)))).
Proof.
  intros Hin Hconn Hstale. cbn [Net.step]. unfold Net.intervalFires.
  rewrite (existsb_eqb_In _ _ Hin). unfold Net.heartbeat. rewrite Hconn. cbv zeta.
  unfold Net.emit at 1. rewrite lastPong_onCurrent.
  destruct (Z.gtb_spec (now - Net.lastPongReceived s) 60000) as [_|Hle]; [|lia].
  reflexivity.
Qed.

Lemma lastPong_setup (x : Net.state) :
  Net.lastPongReceived (Net.setupSocketEventHandlers x) = Net.lastPongReceived x.
Proof.
  unfold Net.setupSocketEventHandlers. destruct (Net.socket x); [|reflexivity].
  unfold Net.on. now rewrite !lastPong_onCurrent.
Qed.

Lemma lastPong_onConnect (now : Z) (x : Net.state) :
  Net.lastPongReceived (Net.onConnect now x) = now.
Proof.
  unfold Net.onConnect. cbv zeta. rewrite lastPong_setup.
  cbn [Net.pingInterval Net.setLastPongReceived Net.log].
  destruct (Net.pingInterval x); reflexivity.
Qed.

Lemma recovery_from (s : Net.state) (h : nat) (now : Z) (sid : string) (now2 : Z) :
  Props.heartbeatOk s ->
  In h (Net.intervals s) ->
  Net.isConnected s = true ->
  (now - Net.lastPongReceived s > 60000)%Z ->
  forall s1 s2 s3,
  s1 = Net.step s (Net.IntervalFires h now) ->
  s2 = Net.step s1 (Net.ReconnectFires (Net.nextHandle s)) ->
  s3 = Net.step s2 (Net.SocketConnects (List.length (Net.sockets s)) sid now2) ->
  Net.current s3
    = Some (Net.mkSocket true (Some sid) [] [] ("connect" :: Inv.relayEvents)) /\
  Net.intervals s3 = [S (Net.nextHandle s)] /\
  Net.pingInterval s3 = Some (S (Net.nextHandle s)) /\
  Net.reconnects s3 = Net.reconnects s /\
  Net.lastPongReceived s3 = now2.
Proof.
  intros Hok Hin Hconn Hstale s1 s2 s3 E1 E2 E3.
  rewrite (intervalFires_recovers s h now Hin Hconn Hstale) in E1.
  destruct (timers_inv (timers_recovery Hok)) as (_ & Hi1 & Hr1 & Hn1).
  rewrite <- E1 in Hi1, Hr1, Hn1.
  assert (Net.isConnected s1 = false) as Hc1.
  { rewrite E1. unfold Net.isConnected, Net.scheduleReconnect, Net.current.
    cbn [Net.socket Net.sockets Net.setReconnects Net.setNextHandle].
    apply isConnected_disconnect. }
  assert (List.length (Net.sockets s1) = List.length (Net.sockets s)) as Hlen.
  { rewrite E1. unfold Net.scheduleReconnect.
    cbn [Net.sockets Net.setReconnects Net.setNextHandle].
    unfold Net.disconnect. rewrite length_sockets_onCurrent.
    assert (forall o x, Net.sockets (Net.clearInterval o x) = Net.sockets x) as Hcl
      by (intros [?|] x; reflexivity).
    rewrite Hcl. cbn [Net.sockets Net.log].
    unfold Net.emit. apply length_sockets_onCurrent. }
  clear E1.
  assert (~ In (Net.nextHandle s) (Net.reconnects s)) as Hfresh.
  { destruct Hok as (_ & _ & Hlt). intros Hc. specialize (Hlt _ Hc). lia. }
  assert (s2 = Net.setSocket (Some (List.length (Net.sockets s1)))
                 (Net.setSockets (Net.sockets s1 ++ [Net.freshSocket])
                    (Net.setReconnects (Net.reconnects s) s1))) as H2.
  { rewrite E2. cbn [Net.step]. unfold Net.reconnectFires. rewrite Hr1.
    assert (existsb (Nat.eqb (Net.nextHandle s)) (Net.reconnects s ++ [Net.nextHandle s])
            = true) as ->.
    { apply existsb_eqb_In, in_or_app. right. now left. }
    rewrite (@filter_drop_last _ _ Hfresh). unfold Net.connectToServer.
    rewrite (@isConnected_frame s1 (Net.setReconnects (Net.reconnects s) s1)
               eq_refl eq_refl), Hc1.
    reflexivity. }
  clear E2.
  assert (Net.sockets s2 = (Net.sockets s1 ++ [Net.freshSocket])%list /\
          Net.socket s2 = Some (List.length (Net.sockets s1)) /\
          Net.intervals s2 = [] /\ Net.reconnects s2 = Net.reconnects s /\
          Net.nextHandle s2 = S (Net.nextHandle s)) as (Hs2 & Hp2 & Hi2 & Hr2 & Hn2).
  { rewrite H2. cbn [Net.sockets Net.socket Net.intervals Net.reconnects Net.nextHandle
                     Net.setSocket Net.setSockets Net.setReconnects].
    auto. }
  clear H2.
  cbn [Net.step] in E3. rewrite <- Hlen in E3.
  rewrite (@socketConnects_last (Net.sockets s1) Net.freshSocket sid now2 s2 Hs2 eq_refl)
    in E3.
  cbn [Net.onceConnect Net.emitted Net.listeners Net.freshSocket fold_left] in E3.
  remember (Net.setSockets
              (Net.sockets s1 ++ [Net.mkSocket true (Some sid) [] [] ["connect"]]) s2)
    as s2' eqn:E2'.
  assert (Net.current s2' = Some (Net.mkSocket true (Some sid) [] [] ["connect"])) as Hk.
  { apply (@current_at_last (Net.sockets s1)); rewrite E2'; [reflexivity | exact Hp2]. }
  assert (Net.intervals s2' = [] /\ Net.reconnects s2' = Net.reconnects s /\
          Net.nextHandle s2' = S (Net.nextHandle s)) as (Hi2' & Hr2' & Hn2').
  { rewrite E2'. cbn [Net.intervals Net.reconnects Net.nextHandle Net.setSockets]. auto. }
  clear E2'.
  pose proof (onConnect_current now2 _ Hk) as Hcur. rewrite <- E3 in Hcur.
  destruct (timers_inv (timers_onConnect now2 _ Hi2')) as (Hp3 & Hi3 & Hr3 & _).
  rewrite <- E3 in Hp3, Hi3, Hr3. rewrite Hn2' in Hp3, Hi3. rewrite Hr2' in Hr3.
  split; [exact Hcur|]. split; [exact Hi3|]. split; [exact Hp3|]. split; [exact Hr3|].
  rewrite E3. apply lastPong_onConnect.
Qed.

(** X27.  The whole recovery: after a heartbeat tick has found the link
    dead, the scheduled reconnect builds a new socket object, and once
    that object connects the session is connected again on it with the
    relay handlers attached and nothing sent yet, exactly one heartbeat
    interval is alive, no reconnect is left pending beyond the earlier
    ones, and the pong clock starts from the time of the connection. *)
Theorem recovery_cycle (es : list Net.event) (h : nat) (now : Z) (sid : string) (now2 : Z) :
  let s := Net.run es Net.init in
  In h (Net.intervals s) ->
  Net.isConnected s = true ->
  (now - Net.lastPongReceived s > 60000)%Z ->
  let s3 := Net.run [Net.IntervalFires h now;
                     Net.ReconnectFires (Net.nextHandle s);
                     Net.SocketConnects (List.length (Net.sockets s)) sid now2] s in
  Net.current s3
    = Some (Net.mkSocket true (Some sid) [] [] ("connect" :: Inv.relayEvents)) /\
  Net.isConnected s3 = true /\
  Net.intervals s3 = [S (Net.nextHandle s)] /\
  Net.pingInterval s3 = Some (S (Net.nextHandle s)) /\
  Net.reconnects s3 = Net.reconnects s /\
  Net.lastPongReceived s3 = now2.
Proof.
  intros s Hin Hconn Hstale s3.
  assert (Props.heartbeatOk s) as Hok by (apply heartbeatOk_run, heartbeatOk_init).
  destruct (@recovery_from s h now sid now2 Hok Hin Hconn Hstale _ _ s3
              eq_refl eq_refl eq_refl) as (Hcur & Hi & Hp & Hr & Hl).
  split; [exact Hcur|]. split; [|tauto].
  unfold Net.isConnected. now rewrite Hcur.
Qed.

Lemma recovery_cycle_witness :
  let s := Net.run [Net.CallConnectToServer; Net.SocketConnects 0 "k1" 0] Net.init in
  let s3 := Net.run [Net.IntervalFires 1 60001;
                     Net.ReconnectFires (Net.nextHandle s);
                     Net.SocketConnects (List.length (Net.sockets s)) "k2" 61500] s in
  Net.isConnected s3 = true /\
  Net.intervals s3 = [S (Net.nextHandle s)] /\
  Net.reconnects s3 = Net.reconnects s /\
  Net.lastPongReceived s3 = 61500%Z.
Proof.
  intros s s3.
  destruct (@recovery_cycle [Net.CallConnectToServer; Net.SocketConnects 0 "k1" 0]
              1 60001 "k2" 61500 (or_introl eq_refl) eq_refl eq_refl)
    as (_ & Hc & Hi & _ & Hr & Hl).
  split; [exact Hc | split; [exact Hi | split; [exact Hr | exact Hl]]].
Defined.

(** * The lobby button *)

Lemma generateRoomCode_some_good (rnd : RoomCode.source) (fuel : nat) :
  (forall k, rnd k < String.length RoomCode.letters) ->
  forall pos code,
    RoomCode.generateRoomCode fuel rnd pos = Some code -> Props.goodCode code.
Proof.
  intros Hb. induction fuel as [|fuel IH]; intros pos code; [discriminate|].
  cbn [RoomCode.generateRoomCode]. cbv zeta.
  destruct (RoomCode.rejected (RoomCode.attempt rnd pos)) eqn:Hr; cbn [negb].
  - apply IH.
  - intros [= <-]. destruct (attempt_shape rnd pos Hb) as (Hl & Ha & Hn).
    repeat split; try assumption; try (now apply Hn).
    now apply rejected_false.
Qed.

(** X28.  A click on the lobby button that gets a code from the generator
    requests a room with a well-formed code (4 letters of the alphabet, no
    denylisted word), passes that request to [createRoom], marks the page
    as host with the start button enabled, and adds nobody to the roster:
    the host is not a roster entry. *)
Theorem createLobbyClick_requests_good_code (fuel : nat) (rnd : RoomCode.source)
    (skin : Z) (p p' : Page.page) :
  (forall k, rnd k < String.length RoomCode.letters) ->
  Handlers.createLobbyClick fuel rnd skin p = Some p' ->
  exists code,
    Props.goodCode code /\
    Page.net p' = Net.createRoom code (Page.net p) /\
    Game.isHost (Page.game p') = true /\
    Game.startDisabled (Page.game p') = false /\
    Game.players (Page.game p') = Game.players (Page.game p).
Proof.
  intros Hb. unfold Handlers.createLobbyClick.
  destruct (RoomCode.generateRoomCode fuel rnd 0) as [code|] eqn:Hg; [|discriminate].
  intros [= <-]. exists code.
  split; [exact (@generateRoomCode_some_good rnd fuel Hb 0 code Hg)|].
  repeat split.
Qed.

Lemma createLobbyClick_requests_good_code_witness :
  exists p',
    Handlers.createLobbyClick 2 (fun k => nth k [3; 0; 11; 12] 0) 3 Handlers.loaded
      = Some p' /\
    Game.isHost (Page.game p') = true.
Proof.
  eexists. split; [reflexivity|].
  assert (Hb : forall k, (fun k => nth k [3; 0; 11; 12] 0) k < String.length RoomCode.letters).
  { intros k. do 4 (destruct k as [|k]; [simpl; lia|]). destruct k; simpl; lia. }
  destruct (@createLobbyClick_requests_good_code 2 (fun k => nth k [3; 0; 11; 12] 0) 3
              Handlers.loaded _ Hb eq_refl) as (code & _ & _ & Hh & _).
  exact Hh.
Defined.

(** * Relay messages that end the round *)





